(** * Proximity tracking engine: beacon2.py and beacon_detector.py

    A shallow embedding of the two scripts of the repository and the
    properties of the proximity tracking engine that they implement.

    Conventions of the model.
    - Python floats and [time.time()] stamps are exact rationals ([Q]), so
      no rounding is modelled; samples ([advertising_data.rssi]) are
      integers ([Z]).  Comparisons are the boolean tests [Qle_bool] and
      [Qltb].
    - A Python exception is a [Raise] in the error monad [result]; the
      operations of the source that can raise (a missing dict key, the
      unpacking of a list that does not hold three values) are written
      out.
    - [manufacturer_data] and the registries of tracked beacons are finite
      maps ([gmap]).  A loop over the items of a registry visits them in
      the order of [map_to_list], where Python visits them in the order
      of insertion; no property below depends on that order.
    - The scanner callback, a click on the calibration button and one pass
      of the polling loop are the atomic events of the system: the two
      threads of beacon_detector.py are interleaved at that grain (the
      [threading.Lock()] of its callback is created anew at each call and
      excludes nothing).
    - The drawing of the screen, of the map and of the list of beacons is
      left out, and so is the status text; the log lines and the rows
      stored in the event table are the [effect]s of a pass. *)

From Stdlib Require Import QArith Qminmax Lqa ZArith Strings.String Strings.Ascii Strings.Byte.
From stdpp Require Import gmap strings list fin_maps.

Local Open Scope Z_scope.

(** ** Exceptions *)

Inductive exn : Type :=
| KeyError
| ValueError.

Inductive result (A : Type) : Type :=
| Ok (a : A)
| Raise (e : exn).
Arguments Ok {A} a.
Arguments Raise {A} e.

#[global] Instance result_ret : MRet result := fun _ a => Ok a.
#[global] Instance result_bind : MBind result := fun _ _ f r =>
  match r with
  | Ok a => f a
  | Raise e => Raise e
  end.

Definition is_Ok {A} (r : result A) : Prop := ∃ a, r = Ok a.

(** [for x in l: body] over a state that the body may replace or abort. *)
Fixpoint for_each {A S : Type} (body : A → S → result S) (l : list A) (s : S)
  : result S :=
  match l with
  | [] => Ok s
  | a :: l' => s' ← body a s; for_each body l' s'
  end.

(** ** Numbers *)

(** [x < y] on floats. *)
Definition Qltb (x y : Q) : bool := negb (Qle_bool y x).

(** [min(x, y)]: Python returns the first argument unless the second is
    strictly smaller. *)
Definition py_min (x y : Q) : Q := if Qltb y x then y else x.


(** [min(l)] of a non-empty list. *)
Definition list_min (x : Q) (l : list Q) : Q := foldl py_min x l.

Definition sum (l : list Z) : Z := foldr Z.add 0 l.

(** [sum(readings) / len(readings)] and [statistics.mean(readings)]. *)
Definition mean (l : list Z) : Q :=
  (inject_Z (sum l) / inject_Z (Z.of_nat (length l)))%Q.

(** [sorted(l, reverse=True)]: a stable sort in decreasing order. *)
Fixpoint insert_desc (x : Q) (l : list Q) : list Q :=
  match l with
  | [] => [x]
  | y :: l' => if Qle_bool y x then x :: y :: l' else y :: insert_desc x l'
  end.

Definition sorted_reverse (l : list Q) : list Q := foldr insert_desc [] l.

(** ** Bytes *)

Abbreviation bytes := (list byte).

(** [b[i:j]] for constant [0 <= i <= j]: never raises, shorter when [b] ends
    early. *)
Definition slice (i j : nat) (b : bytes) : bytes := take (j - i) (drop i b).

Definition hex_digit (n : N) : ascii :=
  match String.get (N.to_nat n) "0123456789abcdef" with
  | Some c => c
  | None => "0"%char
  end.

(** [b.hex()] *)
Fixpoint hex (b : bytes) : string :=
  match b with
  | [] => EmptyString
  | x :: b' =>
      let n := Byte.to_N x in
      String (hex_digit (n / 16)%N) (String (hex_digit (n mod 16)%N) (hex b'))
  end.

(** [int.from_bytes(b, 'big')] *)
Definition int_from_bytes_big (b : bytes) : Z :=
  foldl (fun acc x => acc * 256 + Z.of_N (Byte.to_N x)) 0 b.

#[global] Instance byte_eq_dec' : EqDecision byte := Byte.byte_eq_dec.

(** ** The scanner's inputs *)

(** [device.name] is [None] or a string. *)
Record ble_device : Type := {
  address : string;
  dev_name : option string
}.

Record advertisement_data : Type := {
  manufacturer_data : gmap Z bytes;
  rssi : Z
}.

(** [d[k]] *)
Definition getitem {V} (d : gmap Z V) (k : Z) : result V :=
  match d !! k with
  | Some v => Ok v
  | None => Raise KeyError
  end.

Definition APPLE : Z := 0x004c.
Definition IBEACON_MARKER : bytes := [x02; x15].

(** The guard shared by the two callbacks:
    [if 0x004c in manufacturer_data:
         beacon_data = manufacturer_data[0x004c]
         if beacon_data[0:2] == b'\x02\x15': ...]
    yields the payload the body works on, or no match. *)
Definition match_ibeacon (adv : advertisement_data) : result (option bytes) :=
  if bool_decide (APPLE ∈ dom (manufacturer_data adv)) then
    beacon_data ← getitem (manufacturer_data adv) APPLE;
    if bool_decide (slice 0 2 beacon_data = IBEACON_MARKER)
    then Ok (Some beacon_data)
    else Ok None
  else Ok None.

(** [deque(maxlen=n).append(x)] *)
Definition deque_append (maxlen : nat) (x : Z) (d : list Z) : list Z :=
  let d' := d ++ [x] in
  if bool_decide (maxlen < length d')%nat then drop 1 d' else d'.

(** ** beacon2.py *)

Module Scanner.

Definition BEACON_TIMEOUT : Q := 10.
Definition RSSI_SAMPLES_COUNT : nat := 10.
Definition TREND_THRESHOLD : Q := 3 # 2.

(** The four values of ['trend']. *)
Inductive trend_t : Type :=
| Calculando      (* 'Calculando...' *)
| Acercandose     (* 'Acercándose' *)
| Alejandose      (* 'Alejándose' *)
| Estable.        (* 'Estable' *)

(** One value of [detected_beacons]; ['last_seen'] is absent from the dict
    literal and set by the statement that follows it. *)
Record beacon : Type := {
  uuid : string;
  major : Z;
  minor : Z;
  readings : list Z;
  avg_rssi : option Q;
  prev_avg_rssi : option Q;
  trend : trend_t;
  last_seen : option Q
}.

(** The module-level dict [detected_beacons]. *)
Abbreviation detected_beacons := (gmap string beacon).

(** What the decoder reads from a matching payload. *)
Record ibeacon : Type := {
  ib_uuid : string;
  ib_major : Z;
  ib_minor : Z
}.

(** The decoding part of [detection_callback]: the guard and the three
    fields that the dict literal reads from the payload (slices and
    [int.from_bytes] never raise, so reading them before the test
    [device_key not in detected_beacons] changes nothing). *)
Definition decode (adv : advertisement_data) : result (option ibeacon) :=
  m ← match_ibeacon adv;
  match m with
  | None => Ok None
  | Some beacon_data =>
      Ok (Some {| ib_uuid := hex (slice 2 18 beacon_data);
                  ib_major := int_from_bytes_big (slice 18 20 beacon_data);
                  ib_minor := int_from_bytes_big (slice 20 22 beacon_data) |})
  end.

(** The dict literal of a first detection. *)
Definition new_beacon (i : ibeacon) : beacon :=
  {| uuid := ib_uuid i; major := ib_major i; minor := ib_minor i;
     readings := [];
     avg_rssi := None; prev_avg_rssi := None;
     trend := Calculando;
     last_seen := None |}.

Definition append_reading (x : Z) (now : Q) (d : beacon) : beacon :=
  {| uuid := uuid d; major := major d; minor := minor d;
     readings := deque_append RSSI_SAMPLES_COUNT x (readings d);
     avg_rssi := avg_rssi d; prev_avg_rssi := prev_avg_rssi d;
     trend := trend d;
     last_seen := Some now |}.

Definition getbeacon (db : detected_beacons) (k : string) : result beacon :=
  match db !! k with
  | Some d => Ok d
  | None => Raise KeyError
  end.

Definition detection_callback (now : Q) (device : ble_device)
    (adv : advertisement_data) (db : detected_beacons) : result detected_beacons :=
  r ← decode adv;
  match r with
  | None => Ok db
  | Some i =>
      let device_key := address device in
      let db1 :=
        if bool_decide (device_key ∈ dom db) then db
        else <[device_key := new_beacon i]> db in
      d ← getbeacon db1 device_key;
      Ok (<[device_key := append_reading (rssi adv) now d]> db1)
  end.

(** ['trend'] from the difference of two averages. *)
Definition trend_of (delta : Q) : trend_t :=
  if Qltb TREND_THRESHOLD delta then Acercandose
  else if Qltb delta (- TREND_THRESHOLD) then Alejandose
  else Estable.

(** The averaging and trend block of the loop, for a beacon that stays. *)
Definition smooth (d : beacon) : beacon :=
  if bool_decide (0 < length (readings d))%nat then
    let new_avg := mean (readings d) in
    let prev :=
      match avg_rssi d with
      | Some a => Some a
      | None => prev_avg_rssi d
      end in
    {| uuid := uuid d; major := major d; minor := minor d;
       readings := readings d;
       avg_rssi := Some new_avg;
       prev_avg_rssi := prev;
       trend :=
         match prev with
         | Some p => trend_of (new_avg - p)%Q
         | None => trend d
         end;
       last_seen := last_seen d |}
  else d.

(** The body of [for key, data in list(detected_beacons.items())]:
    [None] when the beacon is deleted. *)
Definition process (current_time : Q) (data : beacon) : result (option beacon) :=
  match last_seen data with
  | None => Raise KeyError
  | Some seen =>
      if Qltb BEACON_TIMEOUT (current_time - seen)%Q then Ok None
      else Ok (Some (smooth data))
  end.

Definition loop_body (current_time : Q) (item : string * beacon)
    (db : detected_beacons) : result detected_beacons :=
  r ← process current_time item.2;
  match r with
  | None => Ok (delete item.1 db)
  | Some data' => Ok (<[item.1 := data']> db)
  end.

(** One pass of the [while True] loop of [main], without the drawing. *)
Definition main_loop (current_time : Q) (db : detected_beacons)
  : result detected_beacons :=
  for_each (loop_body current_time) (map_to_list db) db.

Inductive event : Type :=
| Advert (now : Q) (device : ble_device) (adv : advertisement_data)
| Tick (now : Q).

Definition step (ev : event) (db : detected_beacons) : result detected_beacons :=
  match ev with
  | Advert now device adv => detection_callback now device adv db
  | Tick now => main_loop now db
  end.

(** The registry after a sequence of events, from the empty one. *)
Definition run_from (db : detected_beacons) (evs : list event)
  : result detected_beacons :=
  for_each step evs db.

Definition run (evs : list event) : result detected_beacons := run_from ∅ evs.

End Scanner.

(** ** beacon_detector.py *)

Module Detector.

Definition BEACON_TIMEOUT : Q := 15.
Definition RSSI_SAMPLES_COUNT : nat := 10.
Definition CALIBRATION_DURATION : Q := 10.

(** [APP_STATE["mode"]] *)
Inductive mode_t : Type :=
| IDLE
| CALIBRATING
| MONITORING.

(** The values of ['status']. *)
Inductive status_t : Type :=
| NUEVO
| CALIBRANDO
| ZONA_1
| ZONA_2
| ZONA_3
| FUERA.

#[global] Instance status_eq_dec : EqDecision status_t.
Proof. solve_decision. Defined.

#[global] Instance mode_eq_dec : EqDecision mode_t.
Proof. solve_decision. Defined.

Definition status_str (z : status_t) : string :=
  match z with
  | NUEVO => "NUEVO"
  | CALIBRANDO => "CALIBRANDO"
  | ZONA_1 => "ZONA 1"
  | ZONA_2 => "ZONA 2"
  | ZONA_3 => "ZONA 3"
  | FUERA => "FUERA"
  end.

(** One value of [APP_STATE["detected_beacons"]]; ['last_seen'] is absent
    from the dict literal and set by the statement that follows it. *)
Record beacon : Type := {
  uuid : string;
  name : string;
  readings : list Z;
  avg_rssi : option Q;
  home_rssi : option Q;
  status : status_t;
  last_seen : option Q
}.

(** [APP_STATE] and the [disabled] flag of [calibrate_button]. *)
Record state : Type := {
  mode : mode_t;
  calibration_end_time : Q;
  detected_beacons : gmap string beacon;
  perimeter_rssi_levels : list Q;
  calibrate_button_disabled : bool
}.

Definition APP_STATE : state :=
  {| mode := IDLE;
     calibration_end_time := 0;
     detected_beacons := ∅;
     perimeter_rssi_levels := [];
     calibrate_button_disabled := false |}.

(** What [add_log_message] is called with. *)
Inductive log_message : Type :=
| MsgIniciando                                  (* "Iniciando calibración..." *)
| MsgFinalizada                                 (* "Calibración finalizada. ..." *)
| MsgPerimetros (p_inner p_mid p_outer : Q)     (* "Perímetros RSSI: ..." *)
| MsgCambio (key : string) (old new : status_t) (* "Baliza k cambió de a a b." *)
| MsgDbRegistrando (mac : string)               (* "DB: Registrando evento ..." *)
| MsgDbOk (mac : string)                        (* "DB: OK - ..." *)
| MsgDbError (mac : string) (e : string).       (* "DB: ERROR al registrar ..." *)

(** What one pass of the loop does to the outside: a line of the log view,
    or a committed [INSERT INTO eventos (mensaje)] for a zone change. *)
Inductive effect : Type :=
| Log (m : log_message)
| Insert (mac_address : string) (old_zone new_zone : status_t).

(** The text of the row an [Insert] stores. *)
Definition mensaje (mac_address : string) (old_zone new_zone : status_t) : string :=
  ("Alerta: Baliza " ++ mac_address ++ " cambió de zona " ++ status_str old_zone
     ++ " a " ++ status_str new_zone ++ ".")%string.

(** The [try] block either commits the row or raises ([psycopg2.connect],
    [execute] or [commit]) with some text, which [except Exception] turns
    into a log line; [db] says which, for the event of each address:
    [None] when the row is committed. *)
Definition log_zone_change_event (mac_address : string) (old_zone new_zone : status_t)
    (db : string → option string) : list effect :=
  Log (MsgDbRegistrando mac_address) ::
  match db mac_address with
  | None => [Insert mac_address old_zone new_zone; Log (MsgDbOk mac_address)]
  | Some e => [Log (MsgDbError mac_address e)]
  end.

(** The decoding part of [detection_callback]: the guard, the UUID, and
    [device.name if device.name else "Desconocido"]. *)
Definition decode (device : ble_device) (adv : advertisement_data)
  : result (option (string * string)) :=
  m ← match_ibeacon adv;
  match m with
  | None => Ok None
  | Some beacon_data =>
      Ok (Some (hex (slice 2 18 beacon_data),
                match dev_name device with
                | Some (String c n) => String c n
                | _ => "Desconocido"%string
                end))
  end.

(** The dict literal of a first detection. *)
Definition new_beacon (i : string * string) : beacon :=
  {| uuid := i.1; name := i.2;
     readings := [];
     avg_rssi := Some (-100)%Q;
     home_rssi := None;
     status := NUEVO;
     last_seen := None |}.

Definition append_reading (x : Z) (now : Q) (d : beacon) : beacon :=
  {| uuid := uuid d; name := name d;
     readings := deque_append RSSI_SAMPLES_COUNT x (readings d);
     avg_rssi := avg_rssi d; home_rssi := home_rssi d; status := status d;
     last_seen := Some now |}.

Definition set_beacons (db : gmap string beacon) (s : state) : state :=
  {| mode := mode s;
     calibration_end_time := calibration_end_time s;
     detected_beacons := db;
     perimeter_rssi_levels := perimeter_rssi_levels s;
     calibrate_button_disabled := calibrate_button_disabled s |}.

Definition getbeacon (db : gmap string beacon) (k : string) : result beacon :=
  match db !! k with
  | Some d => Ok d
  | None => Raise KeyError
  end.

Definition detection_callback (now : Q) (device : ble_device)
    (adv : advertisement_data) (s : state) : result state :=
  r ← decode device adv;
  match r with
  | None => Ok s
  | Some i =>
      let device_key := address device in
      let db := detected_beacons s in
      let db1 :=
        if bool_decide (device_key ∈ dom db) then db
        else <[device_key := new_beacon i]> db in
      d ← getbeacon db1 device_key;
      Ok (set_beacons (<[device_key := append_reading (rssi adv) now d]> db1) s)
  end.

Definition reset_beacon (d : beacon) : beacon :=
  {| uuid := uuid d; name := name d; readings := readings d;
     avg_rssi := avg_rssi d;
     home_rssi := None;
     status := CALIBRANDO;
     last_seen := last_seen d |}.

Definition start_calibration (now : Q) (s : state) : state * list effect :=
  ({| mode := CALIBRATING;
      calibration_end_time := (now + CALIBRATION_DURATION)%Q;
      detected_beacons := reset_beacon <$> detected_beacons s;
      perimeter_rssi_levels := [];
      calibrate_button_disabled := true |},
   [Log MsgIniciando]).

(** A click on [calibrate_button], which is created with
    [on_click=start_calibration]: the handler of a disabled control is not
    called. *)
Definition click_calibrate (now : Q) (s : state) : state * list effect :=
  if calibrate_button_disabled s then (s, []) else start_calibration now s.

Definition set_avg (a : Q) (d : beacon) : beacon :=
  {| uuid := uuid d; name := name d; readings := readings d;
     avg_rssi := Some a;
     home_rssi := home_rssi d; status := status d; last_seen := last_seen d |}.

(** The body of the first [for key, data in beacons_to_process]:
    [None] when the beacon is deleted. *)
Definition sweep (current_time : Q) (data : beacon) : option beacon :=
  if Qltb BEACON_TIMEOUT (current_time - default 0%Q (last_seen data))%Q then None
  else if bool_decide (readings data ≠ [])
       then Some (set_avg (mean (readings data)) data)
       else Some data.

Definition set_home (d : beacon) : beacon :=
  match avg_rssi d with
  | Some a =>
      {| uuid := uuid d; name := name d; readings := readings d;
         avg_rssi := avg_rssi d;
         home_rssi := Some a;
         status := status d; last_seen := last_seen d |}
  | None => d
  end.

(** [[d['home_rssi'] for d in ....values() if d.get('home_rssi') is not None]] *)
Definition home_rssis (db : gmap string beacon) : list Q :=
  omap (λ kd, home_rssi kd.2) (map_to_list db).

(** The perimeter block at the end of a calibration: the three levels and
    the line it logs. *)
Definition perimeters (homes : list Q) : list Q * list effect :=
  let '(p_inner, p_mid, p_outer, log) :=
    match homes with
    | h :: hs =>
        let weakest_rssi := list_min h hs in
        let p_inner := (weakest_rssi - 5)%Q in
        let p_mid := (p_inner - 15)%Q in
        let p_outer := (p_inner - 30)%Q in
        (p_inner, p_mid, p_outer, [Log (MsgPerimetros p_inner p_mid p_outer)])
    | [] => (0%Q, 0%Q, 0%Q, [])
    end in
  let p_inner := py_min (-35)%Q p_inner in
  (sorted_reverse [p_inner; p_mid; p_outer], log).

(** The [if / elif / elif / else] chain of the monitoring branch. *)
Definition zone_of (p_inner p_mid p_outer rssi : Q) : status_t :=
  if Qle_bool p_inner rssi then ZONA_1
  else if Qle_bool p_mid rssi && Qltb rssi p_inner then ZONA_2
  else if Qle_bool p_outer rssi && Qltb rssi p_mid then ZONA_3
  else FUERA.

Definition set_status (z : status_t) (d : beacon) : beacon :=
  {| uuid := uuid d; name := name d; readings := readings d;
     avg_rssi := avg_rssi d; home_rssi := home_rssi d;
     status := z;
     last_seen := last_seen d |}.

(** The body of the monitoring loop for one beacon. *)
Definition monitor (p_inner p_mid p_outer : Q) (db : string → option string)
    (key : string) (data : beacon) : beacon * list effect :=
  match avg_rssi data with
  | Some rssi =>
      let old_status := status data in
      let new_status := zone_of p_inner p_mid p_outer rssi in
      if bool_decide (new_status ≠ old_status) then
        (set_status new_status data,
         Log (MsgCambio key old_status new_status) ::
         (if bool_decide (new_status = FUERA ∨ old_status = FUERA)
          then log_zone_change_event key old_status new_status db
          else []))
      else (data, [])
  | None => (data, [])
  end.

(** [for key, data in APP_STATE["detected_beacons"].items()]: every value is
    updated in place, the effects follow the order of the items. *)
Definition monitor_all (p_inner p_mid p_outer : Q) (db : string → option string)
    (beacons : gmap string beacon) : gmap string beacon * list effect :=
  (map_imap (λ key data, Some (monitor p_inner p_mid p_outer db key data).1) beacons,
   concat ((λ kd, (monitor p_inner p_mid p_outer db kd.1 kd.2).2) <$> map_to_list beacons)).

(** One pass of the [while True] loop of [ui_update_loop], without the
    drawing of the map and of the list.  The first loop deletes or updates
    in place each item of the snapshot [beacons_to_process] and cannot
    raise: it is [omap sweep]. *)
Definition ui_update_loop (current_time : Q) (db : string → option string)
    (s : state) : result (state * list effect) :=
  let beacons := omap (sweep current_time) (detected_beacons s) in
  match mode s with
  | CALIBRATING =>
      let remaining_time := (calibration_end_time s - current_time)%Q in
      if Qltb 0 remaining_time then Ok (set_beacons beacons s, [])
      else
        let beacons' := set_home <$> beacons in
        let '(levels, log) := perimeters (home_rssis beacons') in
        Ok ({| mode := MONITORING;
               calibration_end_time := calibration_end_time s;
               detected_beacons := beacons';
               perimeter_rssi_levels := levels;
               calibrate_button_disabled := false |},
            Log MsgFinalizada :: log)
  | MONITORING =>
      match perimeter_rssi_levels s with
      | [] => Ok (set_beacons beacons s, [])
      | [p_inner; p_mid; p_outer] =>
          let '(beacons', effs) := monitor_all p_inner p_mid p_outer db beacons in
          Ok (set_beacons beacons' s, effs)
      | _ => Raise ValueError
      end
  | IDLE => Ok (set_beacons beacons s, [])
  end.

Inductive event : Type :=
| Advert (now : Q) (device : ble_device) (adv : advertisement_data)
| Click (now : Q)
| Tick (now : Q) (db : string → option string).

Definition step (ev : event) (s : state) : result state :=
  match ev with
  | Advert now device adv => detection_callback now device adv s
  | Click now => Ok (click_calibrate now s).1
  | Tick now db => r ← ui_update_loop now db s; Ok r.1
  end.

Definition run_from (s : state) (evs : list event) : result state :=
  for_each step evs s.

(** The state after a sequence of events, from the initial [APP_STATE]. *)
Definition run (evs : list event) : result state := run_from APP_STATE evs.

(** The rows that a list of effects stores for one address. *)
Definition is_insert_for (key : string) (e : effect) : bool :=
  match e with
  | Insert k _ _ => bool_decide (k = key)
  | Log _ => false
  end.

Definition inserts_for (key : string) (effs : list effect) : list effect :=
  List.filter (is_insert_for key) effs.

(** [add_log_message], as it changes [logs_view.controls]: the entry is
    appended and, past 50 entries, the oldest is popped.  ([page.update()]
    comes after both, so an exception there leaves the list as it is.) *)
Definition add_log_message (timestamp message : string) (controls : list string)
  : list string :=
  let log_entry := ("[" ++ timestamp ++ "] " ++ message)%string in
  let controls' := controls ++ [log_entry] in
  if bool_decide (50 < length controls')%nat then drop 1 controls' else controls'.






End Detector.

(** * Invariants and sample traces *)

(** What holds of every beacon of [Scanner.detected_beacons] between two
    events. *)
Definition scanner_beacon_ok (d : Scanner.beacon) : Prop :=
  Scanner.readings d ≠ []
  ∧ (length (Scanner.readings d) ≤ Scanner.RSSI_SAMPLES_COUNT)%nat
  ∧ is_Some (Scanner.last_seen d)
  ∧ (Scanner.avg_rssi d = None →
     Scanner.prev_avg_rssi d = None ∧ Scanner.trend d = Scanner.Calculando).

Definition scanner_inv (db : Scanner.detected_beacons) : Prop :=
  ∀ k d, db !! k = Some d → scanner_beacon_ok d.

(** What [Scanner.process] does to a beacon whose ['last_seen'] is set. *)
Definition scanner_keep (now : Q) (d : Scanner.beacon) : option Scanner.beacon :=
  if Qltb Scanner.BEACON_TIMEOUT (now - default 0%Q (Scanner.last_seen d))%Q
  then None else Some (Scanner.smooth d).

(** What holds of every beacon of [APP_STATE["detected_beacons"]] between
    two events. *)
Definition detector_beacon_ok (d : Detector.beacon) : Prop :=
  Detector.readings d ≠ []
  ∧ (length (Detector.readings d) ≤ Detector.RSSI_SAMPLES_COUNT)%nat
  ∧ is_Some (Detector.last_seen d)
  ∧ is_Some (Detector.avg_rssi d).

(** The perimeter levels are unset, or three levels in non-increasing
    order. *)
Definition levels_ok (levels : list Q) : Prop :=
  levels = [] ∨ ∃ p_inner p_mid p_outer,
    levels = [p_inner; p_mid; p_outer] ∧ (p_outer <= p_mid)%Q ∧ (p_mid <= p_inner)%Q.

Definition detector_inv (s : Detector.state) : Prop :=
  (∀ k d, Detector.detected_beacons s !! k = Some d → detector_beacon_ok d)
  ∧ levels_ok (Detector.perimeter_rssi_levels s)
  ∧ (Detector.mode s = Detector.CALIBRATING ↔ Detector.calibrate_button_disabled s = true)
  ∧ (Detector.perimeter_rssi_levels s ≠ [] → Detector.mode s = Detector.MONITORING).

(** A complete iBeacon payload: marker, 16 bytes of UUID, major 1, minor 2,
    and the measured power. *)
Definition payload : bytes :=
  [x02; x15;
   x01; x02; x03; x04; x05; x06; x07; x08; x09; x0a; x0b; x0c; x0d; x0e; x0f; x10;
   x00; x01; x00; x02; xc5].

Definition ibeacon_adv (r : Z) : advertisement_data :=
  {| manufacturer_data := {[ APPLE := payload ]}; rssi := r |}.

Definition dev_a : ble_device := {| address := "AA:00"; dev_name := Some "tag"%string |}.
Definition dev_b : ble_device := {| address := "BB:00"; dev_name := None |}.
Definition dev_c : ble_device := {| address := "CC:00"; dev_name := Some EmptyString |}.

(** A store that accepts every connection. *)
Definition db_up : string → option string := λ _, None.

(** An event that adds no sample to the window of the beacon at [k]: an
    advertisement of another address, or one the decoder does not match. *)
Definition no_sample_for (k : string) (ev : Scanner.event) : Prop :=
  match ev with
  | Scanner.Advert _ device adv => address device ≠ k ∨ Scanner.decode adv = Ok None
  | Scanner.Tick _ => False
  end.


(** Two passes of the loop whose averages are -60 then -50, -50 then -60,
    -50 then -50.5, and a single pass. *)
Definition trace_approaching : list Scanner.event :=
  [Scanner.Advert 0 dev_a (ibeacon_adv (-60)); Scanner.Tick 1;
   Scanner.Advert 1 dev_a (ibeacon_adv (-40)); Scanner.Tick 2].

Definition trace_receding : list Scanner.event :=
  [Scanner.Advert 0 dev_a (ibeacon_adv (-50)); Scanner.Tick 1;
   Scanner.Advert 1 dev_a (ibeacon_adv (-70)); Scanner.Tick 2].



(** The registry of [trace_approaching] before and after its second pass. *)
Definition approaching_seen : Scanner.beacon :=
  {| Scanner.uuid := "0102030405060708090a0b0c0d0e0f10";
     Scanner.major := 1; Scanner.minor := 2;
     Scanner.readings := [-60; -40];
     Scanner.avg_rssi := Some (-60)%Q; Scanner.prev_avg_rssi := None;
     Scanner.trend := Scanner.Calculando;
     Scanner.last_seen := Some 1%Q |}.

Definition approaching_smoothed : Scanner.beacon :=
  {| Scanner.uuid := "0102030405060708090a0b0c0d0e0f10";
     Scanner.major := 1; Scanner.minor := 2;
     Scanner.readings := [-60; -40];
     Scanner.avg_rssi := Some (-100 # 2)%Q; Scanner.prev_avg_rssi := Some (-60)%Q;
     Scanner.trend := Scanner.Acercandose;
     Scanner.last_seen := Some 1%Q |}.

(** The beacon of [trace_receding] after its second pass, and after one more
    pass over the same window. *)
Definition settled_seen : Scanner.beacon :=
  {| Scanner.uuid := "0102030405060708090a0b0c0d0e0f10";
     Scanner.major := 1; Scanner.minor := 2;
     Scanner.readings := [-50; -70];
     Scanner.avg_rssi := Some (-120 # 2)%Q; Scanner.prev_avg_rssi := Some (-50)%Q;
     Scanner.trend := Scanner.Alejandose;
     Scanner.last_seen := Some 1%Q |}.

Definition settled_again : Scanner.beacon :=
  {| Scanner.uuid := "0102030405060708090a0b0c0d0e0f10";
     Scanner.major := 1; Scanner.minor := 2;
     Scanner.readings := [-50; -70];
     Scanner.avg_rssi := Some (-120 # 2)%Q; Scanner.prev_avg_rssi := Some (-120 # 2)%Q;
     Scanner.trend := Scanner.Estable;
     Scanner.last_seen := Some 1%Q |}.

(** A beacon at another address, heard once at -30, after one pass. *)
Definition other_smoothed : Scanner.beacon :=
  {| Scanner.uuid := "0102030405060708090a0b0c0d0e0f10";
     Scanner.major := 1; Scanner.minor := 2;
     Scanner.readings := [-30];
     Scanner.avg_rssi := Some (-30)%Q; Scanner.prev_avg_rssi := None;
     Scanner.trend := Scanner.Calculando;
     Scanner.last_seen := Some 2%Q |}.

(** The zone of the beacon at [k] before and after the pass of the loop
    that follows a sequence of events, and everything that pass logs or
    stores. *)
Definition detector_observed (evs : list Detector.event) (now : Q)
    (db : string → option string) (k : string)
  : result (option Detector.status_t * option Detector.status_t * list Detector.effect) :=
  s ← Detector.run evs;
  r ← Detector.ui_update_loop now db s;
  Ok (Detector.status <$> Detector.detected_beacons s !! k,
      Detector.status <$> Detector.detected_beacons r.1 !! k,
      r.2).

(** Three beacons with the baselines -50, -60 and -70, a calibration from
    time 1 to time 11, and a first pass in monitoring mode. *)
Definition trace_calibrated : list Detector.event :=
  [Detector.Advert 0 dev_a (ibeacon_adv (-50));
   Detector.Advert 0 dev_b (ibeacon_adv (-60));
   Detector.Advert 0 dev_c (ibeacon_adv (-70));
   Detector.Click 1;
   Detector.Tick 11 db_up;
   Detector.Tick (23 # 2) db_up].

Definition dev_d : ble_device := {| address := "DD:00"; dev_name := Some "late"%string |}.

(** After [trace_calibrated], the beacon at AA:00 is heard at -110 (its
    window [-50; -110] has the mean -80), and a beacon that was not there
    during the calibration is heard at -110. *)
Definition trace_moved : list Detector.event :=
  trace_calibrated ++
  [Detector.Advert 12 dev_a (ibeacon_adv (-110));
   Detector.Advert 12 dev_d (ibeacon_adv (-110))].

(** The state after [trace_moved], and the pass at time 13 that follows. *)
Definition state_moved : Detector.state :=
  Eval vm_compute in
    match Detector.run trace_moved with
    | Ok s => s
    | Raise _ => Detector.APP_STATE
    end.

Definition pass_moved : Detector.state * list Detector.effect :=
  Eval vm_compute in
    match Detector.ui_update_loop 13 db_up state_moved with
    | Ok r => r
    | Raise _ => (Detector.APP_STATE, [])
    end.


(** A calibration started and ended with no beacon in sight. *)
Definition trace_empty_calibration : list Detector.event :=
  [Detector.Click 0; Detector.Tick 10 db_up].

(** The calibration of [trace_calibrated], up to the pass that ends it. *)
Definition trace_calibrating : list Detector.event :=
  [Detector.Advert 0 dev_a (ibeacon_adv (-50));
   Detector.Advert 0 dev_b (ibeacon_adv (-60));
   Detector.Advert 0 dev_c (ibeacon_adv (-70));
   Detector.Click 1].

(** The state after [trace_calibrating], and the pass at time 11 that ends
    the calibration. *)
Definition state_calibrating : Detector.state :=
  Eval vm_compute in
    match Detector.run trace_calibrating with
    | Ok s => s
    | Raise _ => Detector.APP_STATE
    end.

Definition pass_calibrated : Detector.state * list Detector.effect :=
  Eval vm_compute in
    match Detector.ui_update_loop 11 db_up state_calibrating with
    | Ok r => r
    | Raise _ => (Detector.APP_STATE, [])
    end.

(** A calibration with one beacon, heard at -15. *)
Definition trace_near_calibration : list Detector.event :=
  [Detector.Advert 0 dev_a (ibeacon_adv (-15)); Detector.Click 0; Detector.Tick 10 db_up].


(** A calibration started at time 0 with one beacon in sight, and a beacon
    that is first heard during it. *)
Definition trace_active : list Detector.event :=
  [Detector.Advert 0 dev_a (ibeacon_adv (-50));
   Detector.Click 0;
   Detector.Advert 2 dev_b (ibeacon_adv (-60));
   Detector.Tick 3 db_up].

(** The state after [trace_active]. *)
Definition state_active : Detector.state :=
  Eval vm_compute in
    match Detector.run trace_active with
    | Ok s => s
    | Raise _ => Detector.APP_STATE
    end.

(** The pass at time 16 during the session of [trace_active]: the beacon at
    AA:00 was last heard at time 0. *)
Definition pass_stale : Detector.state * list Detector.effect :=
  Eval vm_compute in
    match Detector.ui_update_loop 16 db_up state_active with
    | Ok r => r
    | Raise _ => (Detector.APP_STATE, [])
    end.

(** An advertisement whose payload is the marker and one more byte. *)
Definition truncated_adv : advertisement_data :=
  {| manufacturer_data := {[ APPLE := [x02; x15; xab] ]}; rssi := -60 |}.

(** A beacon of beacon2.py heard once, at time 0 and at -50. *)
Definition scanner_first_seen : Scanner.beacon :=
  {| Scanner.uuid := "0102030405060708090a0b0c0d0e0f10";
     Scanner.major := 1; Scanner.minor := 2;
     Scanner.readings := [-50];
     Scanner.avg_rssi := None; Scanner.prev_avg_rssi := None;
     Scanner.trend := Scanner.Calculando;
     Scanner.last_seen := Some 0%Q |}.

(** The sample that an event of beacon2.py carries. *)
Definition sample_of (ev : Scanner.event) : Z :=
  match ev with
  | Scanner.Advert _ _ adv => rssi adv
  | Scanner.Tick _ => 0
  end.

(** An advertisement of the address [k] that the decoder matches. *)
Definition sample_for (k : string) (ev : Scanner.event) : Prop :=
  match ev with
  | Scanner.Advert _ device adv =>
      address device = k ∧ ∃ i, Scanner.decode adv = Ok (Some i)
  | Scanner.Tick _ => False
  end.

(** Twelve advertisements of the address AA:00, at -1, -2, ..., -12. *)
Definition trace_twelve : list Scanner.event :=
  (λ n : Z, Scanner.Advert (inject_Z n) dev_a (ibeacon_adv (- n)))
    <$> [1; 2; 3; 4; 5; 6; 7; 8; 9; 10; 11; 12].

(** The window of the beacon at [k], empty when [k] is not tracked. *)
Definition scanner_window (db : gmap string Scanner.beacon) (k : string) : list Z :=
  default [] (Scanner.readings <$> db !! k).

Definition detector_window (s : Detector.state) (k : string) : list Z :=
  default [] (Detector.readings <$> Detector.detected_beacons s !! k).

(** The sample that an event of beacon_detector.py carries, and the events
    that are an advertisement of the address [k] that the decoder
    matches. *)
Definition detector_sample_of (ev : Detector.event) : Z :=
  match ev with
  | Detector.Advert _ _ adv => rssi adv
  | _ => 0
  end.

Definition detector_sample_for (k : string) (ev : Detector.event) : Prop :=
  match ev with
  | Detector.Advert _ device adv =>
      address device = k ∧ ∃ i, Detector.decode device adv = Ok (Some i)
  | _ => False
  end.

(** The beacon at AA:00 heard at -50 and then as in [trace_twelve]. *)
Definition scanner_twelve_seen : Scanner.beacon :=
  {| Scanner.uuid := "0102030405060708090a0b0c0d0e0f10";
     Scanner.major := 1; Scanner.minor := 2;
     Scanner.readings := [-3; -4; -5; -6; -7; -8; -9; -10; -11; -12];
     Scanner.avg_rssi := None; Scanner.prev_avg_rssi := None;
     Scanner.trend := Scanner.Calculando;
     Scanner.last_seen := Some 12%Q |}.

(** How the mode, the levels, the baselines and the zones go together in
    beacon_detector.py. *)
Definition lifecycle_ok (s : Detector.state) : Prop :=
  (Detector.mode s = Detector.MONITORING ↔ Detector.perimeter_rssi_levels s ≠ [])
  ∧ ∀ k d, Detector.detected_beacons s !! k = Some d →
      (is_Some (Detector.home_rssi d) → Detector.mode s = Detector.MONITORING)
      ∧ (Detector.mode s = Detector.IDLE → Detector.status d = Detector.NUEVO)
      ∧ (Detector.mode s = Detector.CALIBRATING →
         Detector.status d = Detector.NUEVO ∨ Detector.status d = Detector.CALIBRANDO).

(** A store that refuses every connection. *)
Definition db_down : string → option string := λ _, Some "connection refused"%string.

(** The effects that are a stored row. *)
Definition is_insert (e : Detector.effect) : bool :=
  match e with
  | Detector.Insert _ _ _ => true
  | Detector.Log _ => false
  end.

(** The lines of the log that report a change of zone, in order. *)
Definition zone_changes (effs : list Detector.effect)
  : list (string * Detector.status_t * Detector.status_t) :=
  omap (λ e, match e with
             | Detector.Log (Detector.MsgCambio k old new) => Some (k, old, new)
             | _ => None
             end) effs.

(** The zones from the nearest to the farthest; 0 for a status that is not
    a zone. *)
Definition zone_rank (z : Detector.status_t) : nat :=
  match z with
  | Detector.ZONA_1 => 1
  | Detector.ZONA_2 => 2
  | Detector.ZONA_3 => 3
  | Detector.FUERA => 4
  | _ => 0
  end.

(** The text of a line of the log view. *)
Definition log_line (e : string * string) : string :=
  ("[" ++ e.1 ++ "] " ++ e.2)%string.

(** Fifty-two messages logged in the same second. *)
Definition fifty_two_messages : list (string * string) :=
  (λ n : nat, ("12:00:00", String (ascii_of_nat (33 + n)) EmptyString)) <$> seq 0 52.

(** The value of a hexadecimal digit, 0 for any other character. *)
Definition hex_value (c : ascii) : N :=
  match index 0 (String c EmptyString) "0123456789abcdef" with
  | Some n => N.of_nat n
  | None => 0%N
  end.




(** * Properties *)


(** ** Comparisons and the error monad *)

Lemma Qltb_true (x y : Q) : Qltb x y = true ↔ (x < y)%Q.
Proof.
  unfold Qltb. rewrite negb_true_iff. split.
  - intros H. apply Qnot_le_lt. intros Hle.
    apply Qle_bool_iff in Hle. congruence.
  - intros H. destruct (Qle_bool y x) eqn:E; [|done].
    apply Qle_bool_iff in E. lra.
Qed.

Lemma Qltb_false (x y : Q) : Qltb x y = false ↔ (y <= x)%Q.
Proof.
  unfold Qltb. rewrite negb_false_iff. apply Qle_bool_iff.
Qed.

Lemma Qle_bool_false (x y : Q) : Qle_bool x y = false ↔ (y < x)%Q.
Proof.
  split.
  - intros H. apply Qnot_le_lt. intros Hle. apply Qle_bool_iff in Hle. congruence.
  - intros H. destruct (Qle_bool x y) eqn:E; [|done].
    apply Qle_bool_iff in E. lra.
Qed.

(** Turns the boolean tests in the context into order facts. *)
Ltac Qbool :=
  repeat match goal with
  | H : Qltb _ _ = true |- _ => apply Qltb_true in H
  | H : Qltb _ _ = false |- _ => apply Qltb_false in H
  | H : Qle_bool _ _ = true |- _ => apply Qle_bool_iff in H
  | H : Qle_bool _ _ = false |- _ => apply Qle_bool_false in H
  end.

Lemma for_each_app {A S} (body : A → S → result S) (l1 l2 : list A) (s : S) :
  for_each body (l1 ++ l2) s = s' ← for_each body l1 s; for_each body l2 s'.
Proof.
  revert s. induction l1 as [|a l1 IH]; intros s; simpl; [done|].
  destruct (body a s) as [s1|e]; simpl; [apply IH|done].
Qed.

Lemma for_each_cons {A S} (body : A → S → result S) (a : A) (l : list A) (s : S) :
  for_each body (a :: l) s = s' ← body a s; for_each body l s'.
Proof. done. Qed.

Lemma bind_Ok {A B} (f : A → result B) (r : result A) (b : B) :
  r ≫= f = Ok b → ∃ a, r = Ok a ∧ f a = Ok b.
Proof. destruct r as [a|e]; simpl; [eauto|done]. Qed.

(** Reachability is closed under one more event. *)
Lemma for_each_snoc {A S} (body : A → S → result S) (l : list A) (a : A) (s s' : S) :
  for_each body (l ++ [a]) s = Ok s' →
  ∃ s1, for_each body l s = Ok s1 ∧ body a s1 = Ok s'.
Proof.
  rewrite for_each_app. intros H. apply bind_Ok in H as (s1 & H1 & H2).
  exists s1. split; [done|]. simpl in H2.
  destruct (body a s1); simpl in H2; congruence.
Qed.

(** ** The decoder *)

Lemma slice_short (b : bytes) : (length b < 2)%nat → slice 0 2 b ≠ IBEACON_MARKER.
Proof.
  unfold slice, IBEACON_MARKER. intros Hlen Heq.
  apply (f_equal length) in Heq. rewrite length_take, length_drop in Heq.
  change (length [x02; x15]) with 2%nat in Heq. lia.
Qed.

Lemma match_ibeacon_spec (adv : advertisement_data) :
  match_ibeacon adv =
  Ok (match manufacturer_data adv !! APPLE with
      | Some b => if bool_decide (slice 0 2 b = IBEACON_MARKER) then Some b else None
      | None => None
      end).
Proof.
  unfold match_ibeacon, getitem. case_bool_decide as Hin.
  - apply elem_of_dom in Hin as [b Hb]. rewrite Hb. simpl.
    by case_bool_decide.
  - apply not_elem_of_dom in Hin. by rewrite Hin.
Qed.

Lemma scanner_decode_spec (adv : advertisement_data) :
  ∃ r, Scanner.decode adv = Ok r ∧
       (is_Some r ↔ ∃ b, manufacturer_data adv !! APPLE = Some b
                          ∧ slice 0 2 b = IBEACON_MARKER).
Proof.
  unfold Scanner.decode. rewrite match_ibeacon_spec. simpl.
  destruct (manufacturer_data adv !! APPLE) as [b|] eqn:Hb.
  - case_bool_decide as Hm; eexists; (split; [done|]); split.
    + intros _. eauto.
    + intros _. eauto.
    + intros []; done.
    + intros (b' & [= <-] & ?). done.
  - eexists. split; [done|]. split; [intros []; done|].
    intros (b & ? & _). done.
Qed.

Lemma detector_decode_spec (device : ble_device) (adv : advertisement_data) :
  ∃ r, Detector.decode device adv = Ok r ∧
       (is_Some r ↔ ∃ b, manufacturer_data adv !! APPLE = Some b
                          ∧ slice 0 2 b = IBEACON_MARKER).
Proof.
  unfold Detector.decode. rewrite match_ibeacon_spec. simpl.
  destruct (manufacturer_data adv !! APPLE) as [b|] eqn:Hb.
  - case_bool_decide as Hm; eexists; (split; [done|]); split.
    + intros _. eauto.
    + intros _. eauto.
    + intros []; done.
    + intros (b' & [= <-] & ?). done.
  - eexists. split; [done|]. split; [intros []; done|].
    intros (b & ? & _). done.
Qed.

(** ** The loop of beacon2.py over a snapshot of the registry *)

Section snapshot_loop.
Context (now : Q) (f : Scanner.beacon → option Scanner.beacon).

Lemma loop_body_Ok (k : string) (d : Scanner.beacon) (acc : gmap string Scanner.beacon) :
  Scanner.process now d = Ok (f d) →
  Scanner.loop_body now (k, d) acc =
  Ok (match f d with
      | Some d' => <[k:=d']> acc
      | None => delete k acc
      end).
Proof.
  intros H. unfold Scanner.loop_body. simpl. rewrite H. simpl. by destruct (f d).
Qed.

Lemma loop_items (l : list (string * Scanner.beacon)) (acc : gmap string Scanner.beacon) :
  NoDup l.*1 →
  (∀ k d, (k, d) ∈ l → Scanner.process now d = Ok (f d)) →
  ∃ m, for_each (Scanner.loop_body now) l acc = Ok m ∧
       ∀ k, m !! k = match (list_to_map l : gmap string Scanner.beacon) !! k with
                      | Some d => f d
                      | None => acc !! k
                      end.
Proof.
  revert acc. induction l as [|[k0 d0] l IH]; intros acc Hnd Hf.
  - exists acc. split; [done|]. intros k. simpl. by rewrite lookup_empty.
  - rewrite fmap_cons in Hnd. apply NoDup_cons in Hnd as [Hk0 Hnd].
    assert (Hl : (list_to_map l : gmap string Scanner.beacon) !! k0 = None)
      by by apply not_elem_of_list_to_map_1.
    rewrite for_each_cons, loop_body_Ok by (apply (Hf k0); left).
    destruct (f d0) as [d'|] eqn:Hd; simpl.
    + destruct (IH (<[k0:=d']> acc) Hnd) as (m & Hm & Hlook).
      { intros k d Hin. apply (Hf k). by right. }
      exists m. split; [done|]. intros k. rewrite Hlook. simpl.
      destruct (decide (k = k0)) as [->|Hne].
      * by rewrite Hl, (lookup_insert_eq acc), lookup_insert_eq.
      * by rewrite (lookup_insert_ne acc), lookup_insert_ne by done.
    + destruct (IH (delete k0 acc) Hnd) as (m & Hm & Hlook).
      { intros k d Hin. apply (Hf k). by right. }
      exists m. split; [done|]. intros k. rewrite Hlook. simpl.
      destruct (decide (k = k0)) as [->|Hne].
      * by rewrite Hl, lookup_insert_eq, lookup_delete_eq.
      * by rewrite lookup_insert_ne, lookup_delete_ne by done.
Qed.

Lemma main_loop_omap (db : Scanner.detected_beacons) :
  (∀ k d, db !! k = Some d → Scanner.process now d = Ok (f d)) →
  Scanner.main_loop now db = Ok (omap f db).
Proof.
  intros Hf. unfold Scanner.main_loop.
  destruct (loop_items (map_to_list db) db) as (m & Hm & Hlook).
  - apply NoDup_fst_map_to_list.
  - intros k d Hin. apply (Hf k). by apply elem_of_map_to_list.
  - rewrite Hm. f_equal. apply map_eq. intros k.
    rewrite Hlook, list_to_map_to_list, lookup_omap.
    by destruct (db !! k).
Qed.
End snapshot_loop.

Lemma scanner_process_keep (now : Q) (d : Scanner.beacon) :
  is_Some (Scanner.last_seen d) →
  Scanner.process now d = Ok (scanner_keep now d).
Proof.
  intros [seen Hseen]. unfold Scanner.process, scanner_keep. rewrite Hseen. simpl.
  by destruct (Qltb _ _).
Qed.

Lemma scanner_main_loop (now : Q) (db : Scanner.detected_beacons) :
  scanner_inv db → Scanner.main_loop now db = Ok (omap (scanner_keep now) db).
Proof.
  intros Hinv. apply main_loop_omap. intros k d Hd.
  apply scanner_process_keep. by destruct (Hinv k d Hd) as (_ & _ & ? & _).
Qed.

Lemma deque_append_nonempty (n : nat) (x : Z) (l : list Z) :
  (0 < n)%nat → deque_append n x l ≠ [].
Proof.
  intros Hn. unfold deque_append. case_bool_decide as Hlen.
  - rewrite length_app in Hlen. simpl in Hlen.
    destruct l as [|y l]; simpl in *; [lia|]. by destruct l.
  - by destruct l.
Qed.

Lemma deque_append_length (n : nat) (x : Z) (l : list Z) :
  (0 < n)%nat → (length l ≤ n)%nat → (length (deque_append n x l) ≤ n)%nat.
Proof.
  intros Hn Hl. unfold deque_append. case_bool_decide as Hlen.
  - rewrite length_drop, length_app. simpl. lia.
  - lia.
Qed.

Lemma scanner_smooth_ok (d : Scanner.beacon) :
  scanner_beacon_ok d → scanner_beacon_ok (Scanner.smooth d).
Proof.
  intros (Hr & Hlen & Hseen & Hnone). unfold Scanner.smooth.
  case_bool_decide; [|done].
  repeat split; simpl; try done.
Qed.

Lemma scanner_callback (now : Q) (device : ble_device) (adv : advertisement_data)
    (db : Scanner.detected_beacons) :
  ∃ r, Scanner.decode adv = Ok r ∧
    Scanner.detection_callback now device adv db =
    Ok (match r with
        | None => db
        | Some i =>
            <[address device :=
                Scanner.append_reading (rssi adv) now
                  (default (Scanner.new_beacon i) (db !! address device))]> db
        end).
Proof.
  destruct (scanner_decode_spec adv) as (r & Hr & _). exists r. split; [done|].
  unfold Scanner.detection_callback. rewrite Hr. simpl.
  destruct r as [i|]; [|done].
  unfold Scanner.getbeacon. case_bool_decide as Hin.
  - apply elem_of_dom in Hin as [d Hd]. rewrite Hd. done.
  - apply not_elem_of_dom in Hin. rewrite Hin, lookup_insert_eq. simpl.
    by rewrite insert_insert_eq.
Qed.

Lemma scanner_step_inv (ev : Scanner.event) (db : Scanner.detected_beacons) :
  scanner_inv db → ∃ db', Scanner.step ev db = Ok db' ∧ scanner_inv db'.
Proof.
  intros Hinv. destruct ev as [now device adv|now]; simpl.
  - destruct (scanner_callback now device adv db) as (r & _ & ->).
    eexists. split; [done|]. destruct r as [i|]; [|done].
    intros k d. destruct (decide (k = address device)) as [->|Hne].
    + rewrite lookup_insert_eq. intros [= <-].
      assert (Hold : (length (Scanner.readings
                 (default (Scanner.new_beacon i) (db !! address device)))
                 ≤ Scanner.RSSI_SAMPLES_COUNT)%nat
               ∧ (Scanner.avg_rssi (default (Scanner.new_beacon i) (db !! address device)) = None →
                  Scanner.prev_avg_rssi (default (Scanner.new_beacon i) (db !! address device)) = None
                  ∧ Scanner.trend (default (Scanner.new_beacon i) (db !! address device))
                    = Scanner.Calculando)).
      { destruct (db !! address device) as [d|] eqn:Hd; simpl.
        - destruct (Hinv _ _ Hd) as (_ & ? & _ & ?). done.
        - split; [unfold Scanner.RSSI_SAMPLES_COUNT; lia|done]. }
      destruct Hold as [Hlen Hnone].
      repeat split; simpl.
      * apply deque_append_nonempty. unfold Scanner.RSSI_SAMPLES_COUNT. lia.
      * apply deque_append_length; [unfold Scanner.RSSI_SAMPLES_COUNT; lia|done].
      * done.
      * by apply Hnone.
      * by apply Hnone.
    + rewrite lookup_insert_ne by done. apply Hinv.
  - rewrite scanner_main_loop by done. eexists. split; [done|].
    intros k d. rewrite lookup_omap. destruct (db !! k) as [d0|] eqn:Hd0; [|done].
    simpl. unfold scanner_keep. destruct (Qltb _ _); [done|].
    intros [= <-]. apply scanner_smooth_ok. by apply (Hinv k).
Qed.

Lemma scanner_run_from_inv (evs : list Scanner.event) (db : Scanner.detected_beacons) :
  scanner_inv db → ∃ db', Scanner.run_from db evs = Ok db' ∧ scanner_inv db'.
Proof.
  revert db. induction evs as [|ev evs IH]; intros db Hinv.
  - by exists db.
  - destruct (scanner_step_inv ev db Hinv) as (db1 & Hstep & Hinv1).
    destruct (IH db1 Hinv1) as (db' & Hrun & Hinv').
    exists db'. split; [|done].
    unfold Scanner.run_from in *. simpl. by rewrite Hstep.
Qed.

Lemma scanner_run_inv (evs : list Scanner.event) (db : Scanner.detected_beacons) :
  Scanner.run evs = Ok db → scanner_inv db.
Proof.
  intros Hrun. destruct (scanner_run_from_inv evs ∅) as (db' & Hrun' & Hinv).
  { intros k d. by rewrite lookup_empty. }
  unfold Scanner.run in Hrun. rewrite Hrun in Hrun'. by injection Hrun' as ->.
Qed.

(** ** The events of beacon_detector.py *)

Lemma detector_callback (now : Q) (device : ble_device) (adv : advertisement_data)
    (s : Detector.state) :
  ∃ r, Detector.decode device adv = Ok r ∧
    Detector.detection_callback now device adv s =
    Ok (match r with
        | None => s
        | Some i =>
            Detector.set_beacons
              (<[address device :=
                   Detector.append_reading (rssi adv) now
                     (default (Detector.new_beacon i)
                        (Detector.detected_beacons s !! address device))]>
                 (Detector.detected_beacons s)) s
        end).
Proof.
  destruct (detector_decode_spec device adv) as (r & Hr & _). exists r. split; [done|].
  unfold Detector.detection_callback. rewrite Hr. simpl.
  destruct r as [i|]; [|done].
  unfold Detector.getbeacon. case_bool_decide as Hin.
  - apply elem_of_dom in Hin as [d Hd]. rewrite Hd. done.
  - apply not_elem_of_dom in Hin. rewrite Hin, lookup_insert_eq. simpl.
    by rewrite insert_insert_eq.
Qed.

(** [sorted] of three levels gives the three levels in non-increasing
    order. *)
Lemma sorted_reverse_3 (a b c : Q) :
  ∃ x y z, sorted_reverse [a; b; c] = [x; y; z] ∧ (z <= y)%Q ∧ (y <= x)%Q.
Proof.
  unfold sorted_reverse. simpl.
  destruct (Qle_bool c b) eqn:Hcb; simpl;
    destruct (Qle_bool b a) eqn:Hba; simpl;
    try destruct (Qle_bool c a) eqn:Hca; simpl;
    Qbool; do 3 eexists; (split; [reflexivity|]); lra.
Qed.

Lemma perimeters_levels_ok (homes : list Q) :
  ∃ x y z, (Detector.perimeters homes).1 = [x; y; z] ∧ (z <= y)%Q ∧ (y <= x)%Q.
Proof.
  unfold Detector.perimeters.
  destruct homes as [|h hs]; lazy beta iota zeta delta [fst]; apply sorted_reverse_3.
Qed.

Lemma detector_sweep_ok (now : Q) (d d' : Detector.beacon) :
  detector_beacon_ok d → Detector.sweep now d = Some d' → detector_beacon_ok d'.
Proof.
  intros (Hr & Hlen & Hseen & Havg). unfold Detector.sweep.
  destruct (Qltb _ _); [done|].
  case_bool_decide; intros [= <-]; done.
Qed.

Lemma detector_set_home_ok (d : Detector.beacon) :
  detector_beacon_ok d → detector_beacon_ok (Detector.set_home d).
Proof.
  intros (Hr & Hlen & Hseen & Havg). unfold Detector.set_home.
  destruct (Detector.avg_rssi d) eqn:E; [|done].
  repeat split; simpl; first [done | by rewrite E].
Qed.

Lemma detector_monitor_ok (p_inner p_mid p_outer : Q) (db : string → option string)
    (k : string) (d : Detector.beacon) :
  detector_beacon_ok d →
  detector_beacon_ok (Detector.monitor p_inner p_mid p_outer db k d).1.
Proof.
  intros Hok. unfold Detector.monitor.
  destruct (Detector.avg_rssi d) eqn:E; [|done].
  case_bool_decide; [|done]. simpl.
  destruct Hok as (Hr & Hlen & Hseen & Havg). repeat split; simpl; try done.
Qed.

Lemma detector_inv_set_beacons (s : Detector.state) (db : gmap string Detector.beacon) :
  detector_inv s →
  (∀ k d, db !! k = Some d → detector_beacon_ok d) →
  detector_inv (Detector.set_beacons db s).
Proof. intros (Hb & Hlev & Hbtn & Hmon) Hdb. split; [|split; [|split]]; done. Qed.

Lemma detector_step_inv (ev : Detector.event) (s : Detector.state) :
  detector_inv s → ∃ s', Detector.step ev s = Ok s' ∧ detector_inv s'.
Proof.
  intros Hinv. pose proof Hinv as (Hb & Hlev & Hbtn & Hmon).
  destruct ev as [now device adv|now|now db]; simpl.
  - destruct (detector_callback now device adv s) as (r & _ & ->).
    eexists. split; [done|]. destruct r as [i|]; [|done].
    apply detector_inv_set_beacons; [done|]. intros k d.
    destruct (decide (k = address device)) as [->|Hne].
    + rewrite lookup_insert_eq. intros [= <-].
      assert (Hold : (length (Detector.readings
                 (default (Detector.new_beacon i)
                    (Detector.detected_beacons s !! address device)))
                 ≤ Detector.RSSI_SAMPLES_COUNT)%nat
               ∧ is_Some (Detector.avg_rssi (default (Detector.new_beacon i)
                    (Detector.detected_beacons s !! address device)))).
      { destruct (Detector.detected_beacons s !! address device) as [d|] eqn:Hd; simpl.
        - destruct (Hb _ _ Hd) as (_ & ? & _ & ?). done.
        - split; [unfold Detector.RSSI_SAMPLES_COUNT; lia|done]. }
      destruct Hold as [Hlen Havg].
      split; [|split; [|split]]; simpl.
      * apply deque_append_nonempty. unfold Detector.RSSI_SAMPLES_COUNT. lia.
      * apply deque_append_length; [unfold Detector.RSSI_SAMPLES_COUNT; lia|done].
      * done.
      * done.
    + rewrite lookup_insert_ne by done. apply Hb.
  - eexists. split; [done|]. unfold Detector.click_calibrate.
    destruct (Detector.calibrate_button_disabled s) eqn:Hdis; simpl; [done|].
    split; [|split; [|split]]; simpl.
    + intros k d. rewrite lookup_fmap.
      destruct (Detector.detected_beacons s !! k) as [d0|] eqn:Hd0; [|done].
      intros [= <-]. destruct (Hb _ _ Hd0) as (? & ? & ? & ?).
      split; [|split; [|split]]; done.
    + by left.
    + done.
    + done.
  - assert (Hsw : ∀ k d, omap (Detector.sweep now) (Detector.detected_beacons s) !! k = Some d →
                         detector_beacon_ok d).
    { intros k d. rewrite lookup_omap.
      destruct (Detector.detected_beacons s !! k) as [d0|] eqn:Hd0; [|done].
      simpl. intros Hs. eapply detector_sweep_ok; [|done]. by apply (Hb k). }
    unfold Detector.ui_update_loop.
    destruct (Detector.mode s) eqn:Hmode.
    + eexists. split; [done|]. by apply detector_inv_set_beacons.
    + destruct (Qltb 0 _).
      * eexists. split; [done|]. by apply detector_inv_set_beacons.
      * destruct (Detector.perimeters _) as [levels log] eqn:Hper.
        eexists. split; [done|].
        split; [|split; [|split]]; simpl.
        -- intros k d. rewrite lookup_fmap.
           destruct (omap _ _ !! k) as [d0|] eqn:Hd0; [|done].
           intros [= <-]. apply detector_set_home_ok. by apply (Hsw k).
        -- destruct (perimeters_levels_ok
                       (Detector.home_rssis (Detector.set_home <$>
                          omap (Detector.sweep now) (Detector.detected_beacons s))))
             as (x & y & z & Heq & ? & ?).
           rewrite Hper in Heq. simpl in Heq. right. by exists x, y, z.
        -- done.
        -- done.
    + destruct Hlev as [Hnil|(p_inner & p_mid & p_outer & Heq & Hle1 & Hle2)].
      * rewrite Hnil. eexists. split; [done|]. by apply detector_inv_set_beacons.
      * rewrite Heq. simpl. eexists. split; [done|].
        apply detector_inv_set_beacons; [done|].
        intros k d. rewrite map_lookup_imap.
        destruct (omap _ _ !! k) as [d0|] eqn:Hd0; [|done].
        simpl. intros [= <-]. apply detector_monitor_ok. by apply (Hsw k).
Qed.

Lemma detector_init_inv : detector_inv Detector.APP_STATE.
Proof.
  split; [|split; [|split]]; simpl; try done.
  by left.
Qed.

Lemma detector_run_from_inv (evs : list Detector.event) (s : Detector.state) :
  detector_inv s → ∃ s', Detector.run_from s evs = Ok s' ∧ detector_inv s'.
Proof.
  revert s. induction evs as [|ev evs IH]; intros s Hinv.
  - by exists s.
  - destruct (detector_step_inv ev s Hinv) as (s1 & Hstep & Hinv1).
    destruct (IH s1 Hinv1) as (s' & Hrun & Hinv').
    exists s'. split; [|done].
    unfold Detector.run_from in *. simpl. by rewrite Hstep.
Qed.

Lemma detector_run_inv (evs : list Detector.event) (s : Detector.state) :
  Detector.run evs = Ok s → detector_inv s.
Proof.
  intros Hrun. destruct (detector_run_from_inv evs Detector.APP_STATE) as (s' & Hrun' & Hinv).
  { apply detector_init_inv. }
  unfold Detector.run in Hrun. rewrite Hrun in Hrun'. by injection Hrun' as ->.
Qed.

(** ** C6: the decoder *)

Lemma decode_no_match (device : ble_device) (adv : advertisement_data) :
  (¬ ∃ b, manufacturer_data adv !! APPLE = Some b ∧ slice 0 2 b = IBEACON_MARKER) →
  Scanner.decode adv = Ok None ∧ Detector.decode device adv = Ok None.
Proof.
  intros Hno.
  destruct (scanner_decode_spec adv) as (r1 & -> & H1).
  destruct (detector_decode_spec device adv) as (r2 & -> & H2).
  destruct r1 as [i|]; [destruct Hno; apply H1; eauto|].
  destruct r2 as [i|]; [destruct Hno; apply H2; eauto|].
  done.
Qed.

(** A payload of three bytes, the marker and one more: both decoders match
    it, with a UUID of one byte and major = minor = 0, and the callback
    tracks the beacon. *)
Lemma truncated_payload_is_decoded :
  Scanner.decode truncated_adv
  = Ok (Some {| Scanner.ib_uuid := "ab"; Scanner.ib_major := 0; Scanner.ib_minor := 0 |})
  ∧ Detector.decode dev_a truncated_adv = Ok (Some ("ab", "tag")%string)
  ∧ (db ← Scanner.run [Scanner.Advert 0 dev_a truncated_adv];
     Ok ((λ d, (Scanner.uuid d, Scanner.readings d)) <$> db !! "AA:00"))
    = Ok (Some ("ab"%string, [-60])).
Proof. repeat split; vm_compute; reflexivity. Qed.

Lemma decode_match (device : ble_device) (adv : advertisement_data) (b : bytes) :
  manufacturer_data adv !! APPLE = Some b → slice 0 2 b = IBEACON_MARKER →
  Scanner.decode adv
  = Ok (Some {| Scanner.ib_uuid := hex (slice 2 18 b);
                Scanner.ib_major := int_from_bytes_big (slice 18 20 b);
                Scanner.ib_minor := int_from_bytes_big (slice 20 22 b) |})
  ∧ ∃ n, Detector.decode device adv = Ok (Some (hex (slice 2 18 b), n)).
Proof.
  intros Hb Hm. unfold Scanner.decode, Detector.decode.
  rewrite match_ibeacon_spec, Hb, bool_decide_true by done. simpl.
  split; [done|]. by eexists.
Qed.

(** C6, as the code has it.  On every advertisement the decoder of either
    script returns without raising, and returns a beacon record exactly
    when [manufacturer_data] has the company id 0x004C and the first two
    bytes of its payload are the marker 02 15.  A missing company id, a
    different marker and a payload shorter than the marker give no match,
    and a callback whose decoder gives no match leaves the registry as it
    was.  A payload that has the marker is decoded whatever its length:
    the UUID, the major and the minor are read from the bytes that are
    there.  Neither callback raises, whatever the payload. *)
Theorem decoder_selective_and_total (now : Q) (device : ble_device)
    (adv : advertisement_data) :
  let matches :=
    ∃ b, manufacturer_data adv !! APPLE = Some b ∧ slice 0 2 b = IBEACON_MARKER in
  (∃ r, Scanner.decode adv = Ok r ∧ (is_Some r ↔ matches))
  ∧ (∃ r, Detector.decode device adv = Ok r ∧ (is_Some r ↔ matches))
  ∧ (manufacturer_data adv !! APPLE = None →
     Scanner.decode adv = Ok None ∧ Detector.decode device adv = Ok None)
  ∧ (∀ b, manufacturer_data adv !! APPLE = Some b → slice 0 2 b ≠ IBEACON_MARKER →
     Scanner.decode adv = Ok None ∧ Detector.decode device adv = Ok None)
  ∧ (∀ b, manufacturer_data adv !! APPLE = Some b → (length b < 2)%nat →
     Scanner.decode adv = Ok None ∧ Detector.decode device adv = Ok None)
  ∧ (∀ b, manufacturer_data adv !! APPLE = Some b → slice 0 2 b = IBEACON_MARKER →
     Scanner.decode adv
     = Ok (Some {| Scanner.ib_uuid := hex (slice 2 18 b);
                   Scanner.ib_major := int_from_bytes_big (slice 18 20 b);
                   Scanner.ib_minor := int_from_bytes_big (slice 20 22 b) |})
     ∧ ∃ n, Detector.decode device adv = Ok (Some (hex (slice 2 18 b), n)))
  ∧ (∀ db, Scanner.decode adv = Ok None →
     Scanner.detection_callback now device adv db = Ok db)
  ∧ (∀ s, Detector.decode device adv = Ok None →
     Detector.detection_callback now device adv s = Ok s)
  ∧ (∀ db, is_Ok (Scanner.detection_callback now device adv db))
  ∧ (∀ s, is_Ok (Detector.detection_callback now device adv s)).
Proof.
  intros matches. repeat apply conj.
  - apply scanner_decode_spec.
  - apply detector_decode_spec.
  - intros Hnone. apply decode_no_match. intros (b & Hb & _). congruence.
  - intros b Hb Hm. apply decode_no_match. intros (b' & Hb' & Hm').
    rewrite Hb in Hb'. by injection Hb' as <-.
  - intros b Hb Hlen. apply decode_no_match. intros (b' & Hb' & Hm').
    rewrite Hb in Hb'. injection Hb' as <-. by apply slice_short in Hlen.
  - intros b Hb Hm. by apply decode_match.
  - intros db Hdec. destruct (scanner_callback now device adv db) as (r & Hr & ->).
    rewrite Hdec in Hr. by injection Hr as <-.
  - intros s Hdec. destruct (detector_callback now device adv s) as (r & Hr & ->).
    rewrite Hdec in Hr. by injection Hr as <-.
  - intros db. destruct (scanner_callback now device adv db) as (r & _ & ->).
    by eexists.
  - intros s. destruct (detector_callback now device adv s) as (r & _ & ->).
    by eexists.
Qed.

(** The complete payload of [ibeacon_adv]: the UUID is its bytes 2 to 17,
    the major 1 and the minor 2. *)
Lemma decoder_selective_and_total_witness :
  manufacturer_data (ibeacon_adv (-60)) !! APPLE = Some payload
  ∧ slice 0 2 payload = IBEACON_MARKER
  ∧ Scanner.decode (ibeacon_adv (-60))
    = Ok (Some {| Scanner.ib_uuid := "0102030405060708090a0b0c0d0e0f10";
                  Scanner.ib_major := 1; Scanner.ib_minor := 2 |}).
Proof.
  assert (Hb : manufacturer_data (ibeacon_adv (-60)) !! APPLE = Some payload)
    by (vm_compute; reflexivity).
  assert (Hm : slice 0 2 payload = IBEACON_MARKER) by reflexivity.
  split; [exact Hb|]. split; [exact Hm|].
  exact (proj1 (proj1 (proj2 (proj2 (proj2 (proj2 (proj2
           (decoder_selective_and_total 0%Q dev_a (ibeacon_adv (-60)))))))) payload Hb Hm)).
Defined.

(** ** C9, C10: averages and trend in beacon2.py *)

Lemma trend_of_cases (delta : Q) :
  ((3 # 2 < delta)%Q → Scanner.trend_of delta = Scanner.Acercandose)
  ∧ ((delta < - (3 # 2))%Q → Scanner.trend_of delta = Scanner.Alejandose)
  ∧ ((- (3 # 2) <= delta <= 3 # 2)%Q → Scanner.trend_of delta = Scanner.Estable).
Proof.
  unfold Scanner.trend_of, Scanner.TREND_THRESHOLD.
  destruct (Qltb (3 # 2) delta) eqn:H1; destruct (Qltb delta (- (3 # 2))) eqn:H2;
    Qbool; repeat split; intros; try done; lra.
Qed.

Lemma smooth_readings (d : Scanner.beacon) :
  Scanner.readings (Scanner.smooth d) = Scanner.readings d.
Proof. unfold Scanner.smooth. by case_bool_decide. Qed.

Lemma smooth_nonempty (d : Scanner.beacon) :
  Scanner.readings d ≠ [] →
  Scanner.avg_rssi (Scanner.smooth d) = Some (mean (Scanner.readings d))
  ∧ match Scanner.avg_rssi d with
    | Some p =>
        Scanner.prev_avg_rssi (Scanner.smooth d) = Some p
        ∧ Scanner.trend (Scanner.smooth d)
          = Scanner.trend_of (mean (Scanner.readings d) - p)%Q
    | None =>
        Scanner.prev_avg_rssi (Scanner.smooth d) = Scanner.prev_avg_rssi d
        ∧ (Scanner.prev_avg_rssi d = None →
           Scanner.trend (Scanner.smooth d) = Scanner.trend d)
    end.
Proof.
  intros Hne. unfold Scanner.smooth. case_bool_decide as Hlen.
  - simpl. split; [done|]. destruct (Scanner.avg_rssi d); [done|].
    split; [done|]. by intros ->.
  - destruct (Scanner.readings d); [done|]. simpl in Hlen. lia.
Qed.

(** What one pass of the loop leaves at [k]. *)
Lemma scanner_tick_lookup (now : Q) (db db' : Scanner.detected_beacons)
    (k : string) (d' : Scanner.beacon) :
  scanner_inv db → Scanner.main_loop now db = Ok db' → db' !! k = Some d' →
  ∃ d, db !! k = Some d ∧ scanner_beacon_ok d ∧ d' = Scanner.smooth d.
Proof.
  intros Hinv Hloop Hd'. rewrite scanner_main_loop in Hloop by done.
  injection Hloop as <-. rewrite lookup_omap in Hd'.
  destruct (db !! k) as [d|] eqn:Hd; [|done]. simpl in Hd'.
  unfold scanner_keep in Hd'. destruct (Qltb _ _); [done|].
  injection Hd' as <-. exists d. split; [done|]. split; [|done]. by apply (Hinv k).
Qed.



Lemma no_sample_step (k : string) (ev : Scanner.event) (db db' : Scanner.detected_beacons) :
  no_sample_for k ev → Scanner.step ev db = Ok db' → db' !! k = db !! k.
Proof.
  destruct ev as [now device adv|now]; simpl; [|done].
  intros Hq Hstep. destruct (scanner_callback now device adv db) as (r & Hr & Hcb).
  rewrite Hcb in Hstep. injection Hstep as <-.
  destruct r as [i|]; [|done]. destruct Hq as [Hne|Hno].
  - by rewrite lookup_insert_ne.
  - rewrite Hno in Hr. done.
Qed.

Lemma no_sample_run (k : string) (evs : list Scanner.event) (db db' : Scanner.detected_beacons) :
  Forall (no_sample_for k) evs → Scanner.run_from db evs = Ok db' → db' !! k = db !! k.
Proof.
  revert db. induction evs as [|ev evs IH]; intros db Hq Hrun.
  - by injection Hrun as <-.
  - apply Forall_cons in Hq as [Hq1 Hq]. unfold Scanner.run_from in Hrun.
    rewrite for_each_cons in Hrun. apply bind_Ok in Hrun as (db1 & Hstep & Hrun).
    rewrite (IH db1 Hq Hrun). by apply (no_sample_step k ev).
Qed.

Lemma trend_of_zero (x : Q) : Scanner.trend_of (x - x)%Q = Scanner.Estable.
Proof. apply trend_of_cases. lra. Qed.

(** C10.  Take a beacon that beacon2.py tracks after a pass of the loop, let
    only advertisements that add no sample to its window arrive, and let
    the loop pass again.  If the beacon is still tracked after that pass,
    its window and its [avg_rssi] are what they were after the first pass,
    its [prev_avg_rssi] is that same average, and its trend is Stable. *)
Theorem unchanged_window_is_stable (evs quiet : list Scanner.event) (t1 t2 : Q)
    (db1 db2 : Scanner.detected_beacons) (k : string) (d1 d2 : Scanner.beacon) :
  Scanner.run (evs ++ [Scanner.Tick t1]) = Ok db1 →
  db1 !! k = Some d1 →
  Forall (no_sample_for k) quiet →
  Scanner.run ((evs ++ [Scanner.Tick t1]) ++ quiet ++ [Scanner.Tick t2]) = Ok db2 →
  db2 !! k = Some d2 →
  is_Some (Scanner.avg_rssi d1)
  ∧ Scanner.readings d2 = Scanner.readings d1
  ∧ Scanner.avg_rssi d2 = Scanner.avg_rssi d1
  ∧ Scanner.prev_avg_rssi d2 = Scanner.avg_rssi d1
  ∧ Scanner.trend d2 = Scanner.Estable.
Proof.
  intros Hrun1 Hd1 Hquiet Hrun2 Hd2.
  (* the first pass *)
  pose proof Hrun1 as Hfirst. unfold Scanner.run, Scanner.run_from in Hfirst.
  apply for_each_snoc in Hfirst as (db0 & Hrun0 & Hloop1). simpl in Hloop1.
  assert (Hinv0 : scanner_inv db0) by by apply (scanner_run_inv evs).
  destruct (scanner_tick_lookup t1 db0 db1 k d1 Hinv0 Hloop1 Hd1)
    as (d0 & Hd0 & (Hne0 & _) & ->).
  destruct (smooth_nonempty d0 Hne0) as [Havg1 _].
  (* the quiet events and the second pass *)
  unfold Scanner.run, Scanner.run_from in Hrun2.
  rewrite for_each_app in Hrun2. apply bind_Ok in Hrun2 as (db1' & Hrun1' & Hrest).
  unfold Scanner.run, Scanner.run_from in Hrun1. rewrite Hrun1 in Hrun1'.
  injection Hrun1' as <-.
  apply for_each_snoc in Hrest as (dbq & Hrunq & Hloop2). simpl in Hloop2.
  assert (Hinvq : scanner_inv dbq).
  { apply (scanner_run_inv ((evs ++ [Scanner.Tick t1]) ++ quiet)).
    unfold Scanner.run, Scanner.run_from. rewrite for_each_app, Hrun1. exact Hrunq. }
  destruct (scanner_tick_lookup t2 dbq db2 k d2 Hinvq Hloop2 Hd2)
    as (dq & Hdq & (Hneq & _) & ->).
  rewrite (no_sample_run k quiet db1 dbq Hquiet Hrunq), Hd1 in Hdq.
  injection Hdq as <-.
  destruct (smooth_nonempty (Scanner.smooth d0) Hneq) as [Havg2 Hprev2].
  rewrite Havg1 in Hprev2. destruct Hprev2 as [Hprev2 Htrend2].
  rewrite smooth_readings in *.
  split; [by rewrite Havg1|]. split; [done|].
  split; [by rewrite Havg1, Havg2|]. split; [by rewrite Havg1|].
  rewrite Htrend2. apply trend_of_zero.
Qed.

(** A beacon whose average fell from -50 to -60 and whose window
    [-50; -70] is the same at the pass that follows: Receding turns
    Stable. *)
Lemma unchanged_window_is_stable_witness :
  Scanner.run trace_receding = Ok {[ "AA:00"%string := settled_seen ]}
  ∧ Scanner.trend settled_seen = Scanner.Alejandose
  ∧ Scanner.run (trace_receding ++ [Scanner.Advert 2 dev_b (ibeacon_adv (-30))]
                 ++ [Scanner.Tick 3])
    = Ok (<["BB:00"%string := other_smoothed]> {[ "AA:00"%string := settled_again ]})
  ∧ Scanner.readings settled_again = Scanner.readings settled_seen
  ∧ Scanner.avg_rssi settled_again = Scanner.avg_rssi settled_seen
  ∧ Scanner.trend settled_again = Scanner.Estable.
Proof.
  assert (Hrun1 : Scanner.run
            ([Scanner.Advert 0 dev_a (ibeacon_adv (-50)); Scanner.Tick 1;
              Scanner.Advert 1 dev_a (ibeacon_adv (-70))] ++ [Scanner.Tick 2])
          = Ok {[ "AA:00"%string := settled_seen ]})
    by (vm_compute; reflexivity).
  assert (Hd1 : ({[ "AA:00"%string := settled_seen ]} : gmap string Scanner.beacon)
                !! "AA:00"%string = Some settled_seen)
    by (vm_compute; reflexivity).
  assert (Hquiet : Forall (no_sample_for "AA:00")
                     [Scanner.Advert 2 dev_b (ibeacon_adv (-30))]).
  { constructor; [|constructor]. left. simpl. intros H. discriminate H. }
  assert (Hrun2 : Scanner.run
            (([Scanner.Advert 0 dev_a (ibeacon_adv (-50)); Scanner.Tick 1;
               Scanner.Advert 1 dev_a (ibeacon_adv (-70))] ++ [Scanner.Tick 2])
             ++ [Scanner.Advert 2 dev_b (ibeacon_adv (-30))] ++ [Scanner.Tick 3])
          = Ok (<["BB:00"%string := other_smoothed]> {[ "AA:00"%string := settled_again ]}))
    by (vm_compute; reflexivity).
  assert (Hd2 : (<["BB:00"%string := other_smoothed]> {[ "AA:00"%string := settled_again ]}
                  : gmap string Scanner.beacon)
                !! "AA:00"%string = Some settled_again)
    by (vm_compute; reflexivity).
  destruct (unchanged_window_is_stable _ _ _ _ _ _ _ _ _ Hrun1 Hd1 Hquiet Hrun2 Hd2)
    as (_ & Hr & Ha & _ & Ht).
  split; [exact Hrun1|]. split; [reflexivity|]. split; [exact Hrun2|].
  split; [exact Hr|]. split; [exact Ha|exact Ht].
Defined.

(** ** The monitoring pass of beacon_detector.py *)


Lemma sweep_Some (now : Q) (d d' : Detector.beacon) :
  Detector.sweep now d = Some d' →
  Detector.status d' = Detector.status d
  ∧ Detector.home_rssi d' = Detector.home_rssi d
  ∧ Detector.readings d' = Detector.readings d
  ∧ Detector.last_seen d' = Detector.last_seen d
  ∧ (Detector.readings d ≠ [] → Detector.avg_rssi d' = Some (mean (Detector.readings d)))
  ∧ (now - default 0 (Detector.last_seen d) <= Detector.BEACON_TIMEOUT)%Q.
Proof.
  unfold Detector.sweep. destruct (Qltb _ _) eqn:E; [done|]. Qbool.
  case_bool_decide; intros [= <-]; simpl; repeat split; done.
Qed.

Lemma monitor_status (p_inner p_mid p_outer : Q) (db : string → option string)
    (k : string) (d : Detector.beacon) (r : Q) :
  Detector.avg_rssi d = Some r →
  Detector.status (Detector.monitor p_inner p_mid p_outer db k d).1
  = Detector.zone_of p_inner p_mid p_outer r
  ∧ Detector.avg_rssi (Detector.monitor p_inner p_mid p_outer db k d).1 = Some r.
Proof.
  intros Hr. unfold Detector.monitor. rewrite Hr.
  case_bool_decide as Hne; simpl; [done|].
  split; [|done]. symmetry.
  by destruct (decide (Detector.zone_of p_inner p_mid p_outer r = Detector.status d)).
Qed.

(** The pass of the loop in monitoring mode, with the levels set. *)
Lemma monitoring_pass (now : Q) (db : string → option string) (s : Detector.state)
    (p_inner p_mid p_outer : Q) :
  Detector.mode s = Detector.MONITORING →
  Detector.perimeter_rssi_levels s = [p_inner; p_mid; p_outer] →
  Detector.ui_update_loop now db s =
  Ok (Detector.set_beacons
        (Detector.monitor_all p_inner p_mid p_outer db
           (omap (Detector.sweep now) (Detector.detected_beacons s))).1 s,
      (Detector.monitor_all p_inner p_mid p_outer db
         (omap (Detector.sweep now) (Detector.detected_beacons s))).2).
Proof. intros Hm Hl. unfold Detector.ui_update_loop. by rewrite Hm, Hl. Qed.

(** With the levels set, the mode is MONITORING and the levels are three,
    in non-increasing order. *)
Lemma levels_set (evs : list Detector.event) (s : Detector.state) :
  Detector.run evs = Ok s → Detector.perimeter_rssi_levels s ≠ [] →
  Detector.mode s = Detector.MONITORING
  ∧ ∃ p_inner p_mid p_outer,
      Detector.perimeter_rssi_levels s = [p_inner; p_mid; p_outer]
      ∧ (p_outer <= p_mid)%Q ∧ (p_mid <= p_inner)%Q.
Proof.
  intros Hrun Hne. destruct (detector_run_inv evs s Hrun) as (_ & Hlev & _ & Hmon).
  split; [by apply Hmon|]. by destruct Hlev.
Qed.

(** What a monitoring pass leaves at [k]. *)
Lemma monitoring_lookup (now : Q) (db : string → option string)
    (beacons : gmap string Detector.beacon) (p_inner p_mid p_outer : Q) (k : string) :
  map_imap (λ key data, Some (Detector.monitor p_inner p_mid p_outer db key data).1)
    (omap (Detector.sweep now) beacons) !! k
  = d ← beacons !! k; d1 ← Detector.sweep now d;
    Some (Detector.monitor p_inner p_mid p_outer db k d1).1.
Proof.
  rewrite map_lookup_imap, lookup_omap.
  destruct (beacons !! k) as [d|]; [|done]. simpl.
  by destruct (Detector.sweep now d).
Qed.



(** ** C1: what a monitoring pass stores *)

Lemma inserts_for_app (k : string) (l1 l2 : list Detector.effect) :
  Detector.inserts_for k (l1 ++ l2) = Detector.inserts_for k l1 ++ Detector.inserts_for k l2.
Proof. apply List.filter_app. Qed.

(** The rows that the body of the monitoring loop stores for [k] when it
    runs on the beacon at [k']. *)
Lemma inserts_monitor (p_inner p_mid p_outer : Q) (db : string → option string)
    (k k' : string) (d : Detector.beacon) :
  Detector.inserts_for k (Detector.monitor p_inner p_mid p_outer db k' d).2 =
  if bool_decide (k' = k) then
    let old_status := Detector.status d in
    let new_status := Detector.status (Detector.monitor p_inner p_mid p_outer db k' d).1 in
    if bool_decide (new_status ≠ old_status ∧
                    (new_status = Detector.FUERA ∨ old_status = Detector.FUERA))
    then match db k with
         | None => [Detector.Insert k old_status new_status]
         | Some _ => []
         end
    else []
  else [].
Proof.
  unfold Detector.monitor.
  destruct (Detector.avg_rssi d) as [r|]; simpl.
  - case_bool_decide as Hne; simpl.
    + case_bool_decide as Hout; simpl.
      * unfold Detector.log_zone_change_event.
        case_bool_decide as Hk; [subst k'|].
        -- rewrite bool_decide_true by done.
           destruct (db k); simpl; [done|]. by rewrite bool_decide_true.
        -- destruct (db k'); simpl; [done|]. by rewrite bool_decide_false.
      * case_bool_decide; [|done]. rewrite bool_decide_false; [done|]. by intros [_ ?].
    + case_bool_decide; [|done]. rewrite bool_decide_false; [done|]. by intros [? _].
  - case_bool_decide; [|done]. rewrite bool_decide_false; [done|]. by intros [? _].
Qed.

Lemma inserts_items (p_inner p_mid p_outer : Q) (db : string → option string) (k : string)
    (l : list (string * Detector.beacon)) :
  NoDup l.*1 →
  Detector.inserts_for k
    (concat ((λ kd, (Detector.monitor p_inner p_mid p_outer db kd.1 kd.2).2) <$> l))
  = match (list_to_map l : gmap string Detector.beacon) !! k with
    | Some d => Detector.inserts_for k (Detector.monitor p_inner p_mid p_outer db k d).2
    | None => []
    end.
Proof.
  induction l as [|[k0 d0] l IH]; intros Hnd; [done|].
  rewrite fmap_cons in Hnd. apply NoDup_cons in Hnd as [Hk0 Hnd].
  assert (Hl : (list_to_map l : gmap string Detector.beacon) !! k0 = None)
    by by apply not_elem_of_list_to_map_1.
  rewrite fmap_cons. simpl concat. rewrite inserts_for_app, (IH Hnd). simpl list_to_map.
  destruct (decide (k = k0)) as [->|Hne].
  - rewrite lookup_insert_eq, Hl. simpl. by rewrite app_nil_r.
  - rewrite lookup_insert_ne by done. rewrite inserts_monitor. simpl.
    by rewrite bool_decide_false.
Qed.

(** A zone change between two zones that are not FUERA: the beacon at AA:00
    goes from ZONA 1 to ZONA 2, the pass logs the change, and the only row it
    stores is for another beacon. *)
Lemma zone_change_without_row :
  detector_observed trace_moved 13 db_up "AA:00"
  = Ok (Some Detector.ZONA_1, Some Detector.ZONA_2,
        [Detector.Log (Detector.MsgCambio "AA:00" Detector.ZONA_1 Detector.ZONA_2);
         Detector.Log (Detector.MsgCambio "DD:00" Detector.NUEVO Detector.FUERA);
         Detector.Log (Detector.MsgDbRegistrando "DD:00");
         Detector.Insert "DD:00" Detector.NUEVO Detector.FUERA;
         Detector.Log (Detector.MsgDbOk "DD:00")])
  ∧ Detector.inserts_for "AA:00"
      [Detector.Log (Detector.MsgCambio "AA:00" Detector.ZONA_1 Detector.ZONA_2);
       Detector.Log (Detector.MsgCambio "DD:00" Detector.NUEVO Detector.FUERA);
       Detector.Log (Detector.MsgDbRegistrando "DD:00");
       Detector.Insert "DD:00" Detector.NUEVO Detector.FUERA;
       Detector.Log (Detector.MsgDbOk "DD:00")] = [].
Proof. split; vm_compute; reflexivity. Qed.

(** C1, as the code has it.  In a pass of the loop in monitoring mode with
    the levels set, the rows stored for a beacon are: exactly one, with the
    old and the new zone, when the beacon is still tracked, its new zone
    differs from its stored zone, one of the two zones is FUERA and the
    connection to the store succeeds; none in every other case.  So a pass
    that leaves the zone as it was stores nothing, and neither does a
    change between zones other than FUERA. *)
Theorem sink_rows_of_a_pass (evs : list Detector.event) (s s' : Detector.state)
    (now : Q) (db : string → option string) (effs : list Detector.effect) (k : string) :
  Detector.run evs = Ok s →
  Detector.mode s = Detector.MONITORING →
  Detector.perimeter_rssi_levels s ≠ [] →
  Detector.ui_update_loop now db s = Ok (s', effs) →
  Detector.inserts_for k effs =
  match Detector.detected_beacons s !! k, Detector.detected_beacons s' !! k with
  | Some d, Some d' =>
      if bool_decide (Detector.status d' ≠ Detector.status d ∧
                      (Detector.status d' = Detector.FUERA ∨
                       Detector.status d = Detector.FUERA))
      then match db k with
           | None => [Detector.Insert k (Detector.status d) (Detector.status d')]
           | Some _ => []
           end
      else []
  | _, _ => []
  end.
Proof.
  intros Hrun Hmode Hne Hloop.
  destruct (levels_set evs s Hrun Hne) as (_ & p_inner & p_mid & p_outer & Hlev & _).
  rewrite (monitoring_pass now db s p_inner p_mid p_outer Hmode Hlev) in Hloop.
  injection Hloop as <- <-. simpl.
  rewrite inserts_items by apply NoDup_fst_map_to_list.
  rewrite list_to_map_to_list, monitoring_lookup, lookup_omap.
  destruct (Detector.detected_beacons s !! k) as [d|] eqn:Hd; [|done]. simpl.
  destruct (Detector.sweep now d) as [d1|] eqn:Hd1; [|done]. simpl.
  rewrite inserts_monitor, bool_decide_true by done. simpl.
  by destruct (sweep_Some now d d1 Hd1) as (-> & _).
Qed.

(** The pass at time 13 after [trace_moved]: the beacon at DD:00 goes from
    NUEVO to FUERA and one row is stored for it. *)
Lemma sink_rows_of_a_pass_witness :
  Detector.run trace_moved = Ok state_moved
  ∧ Detector.ui_update_loop 13 db_up state_moved = Ok pass_moved
  ∧ Detector.inserts_for "DD:00" pass_moved.2
    = [Detector.Insert "DD:00" Detector.NUEVO Detector.FUERA]
  ∧ Detector.inserts_for "AA:00" pass_moved.2 = []
  ∧ Detector.inserts_for "BB:00" pass_moved.2 = [].
Proof.
  assert (Hrun : Detector.run trace_moved = Ok state_moved) by (vm_compute; reflexivity).
  assert (Hloop : Detector.ui_update_loop 13 db_up state_moved = Ok (pass_moved.1, pass_moved.2))
    by (vm_compute; reflexivity).
  assert (Hmode : Detector.mode state_moved = Detector.MONITORING) by reflexivity.
  assert (Hne : Detector.perimeter_rssi_levels state_moved ≠ [])
    by (intros H; discriminate H).
  split; [exact Hrun|]. split; [exact Hloop|].
  pose proof (sink_rows_of_a_pass _ _ _ _ _ _ "DD:00" Hrun Hmode Hne Hloop) as Hd.
  pose proof (sink_rows_of_a_pass _ _ _ _ _ _ "AA:00" Hrun Hmode Hne Hloop) as Ha.
  pose proof (sink_rows_of_a_pass _ _ _ _ _ _ "BB:00" Hrun Hmode Hne Hloop) as Hb.
  split; [rewrite Hd; vm_compute; reflexivity|].
  split; [rewrite Ha; vm_compute; reflexivity|].
  rewrite Hb; vm_compute; reflexivity.
Defined.

(** ** C2, C3: the levels that the end of a calibration stores *)

Lemma py_min_cases (x y : Q) :
  (py_min x y = x ∧ (x <= y)%Q) ∨ (py_min x y = y ∧ (y < x)%Q).
Proof.
  unfold py_min. destruct (Qltb y x) eqn:E; Qbool; [right|left]; done.
Qed.




(** [sorted] of three levels is strictly decreasing exactly when the three
    levels are pairwise different. *)
Lemma sorted_reverse_3_strict (a b c : Q) :
  ∃ x y z, sorted_reverse [a; b; c] = [x; y; z] ∧
    ((z < y)%Q ∧ (y < x)%Q ↔ ¬ (a == b)%Q ∧ ¬ (b == c)%Q ∧ ¬ (a == c)%Q).
Proof.
  unfold sorted_reverse. simpl.
  destruct (Q_dec a b) as [[Hab|Hab]|Hab];
    destruct (Q_dec b c) as [[Hbc|Hbc]|Hbc];
    destruct (Q_dec a c) as [[Hac|Hac]|Hac];
    try (exfalso; lra);
    destruct (Qle_bool c b) eqn:Hcb; simpl;
    destruct (Qle_bool b a) eqn:Hba; simpl;
    try destruct (Qle_bool c a) eqn:Hca; simpl;
    Qbool; try (exfalso; lra);
    do 3 eexists; (split; [reflexivity|]);
    (split; [intros [? ?]; repeat split; intros ?; lra
            |intros (? & ? & ?); first [split; lra | done]]).
Qed.

(** The pass of the loop that ends a calibration. *)
Lemma calibration_pass (now : Q) (db : string → option string) (s : Detector.state) :
  Detector.mode s = Detector.CALIBRATING →
  (Detector.calibration_end_time s <= now)%Q →
  Detector.ui_update_loop now db s =
  Ok ({| Detector.mode := Detector.MONITORING;
         Detector.calibration_end_time := Detector.calibration_end_time s;
         Detector.detected_beacons :=
           Detector.set_home <$> omap (Detector.sweep now) (Detector.detected_beacons s);
         Detector.perimeter_rssi_levels :=
           (Detector.perimeters (Detector.home_rssis
              (Detector.set_home <$> omap (Detector.sweep now) (Detector.detected_beacons s)))).1;
         Detector.calibrate_button_disabled := false |},
      Detector.Log Detector.MsgFinalizada ::
      (Detector.perimeters (Detector.home_rssis
         (Detector.set_home <$> omap (Detector.sweep now) (Detector.detected_beacons s)))).2).
Proof.
  intros Hmode Hend. unfold Detector.ui_update_loop. rewrite Hmode.
  destruct (Qltb 0 _) eqn:E; Qbool; [lra|].
  by destruct (Detector.perimeters _).
Qed.

Lemma perimeters_nil : (Detector.perimeters []).1 = [0; 0; -35]%Q.
Proof. reflexivity. Qed.

Lemma perimeters_cons (h : Q) (hs : list Q) :
  (Detector.perimeters (h :: hs)).1
  = sorted_reverse [py_min (-35) (list_min h hs - 5); list_min h hs - 5 - 15;
                    list_min h hs - 5 - 30]%Q.
Proof. reflexivity. Qed.






(** A calibration that ends with no beacon stores inner = mid = 0, and one
    whose only baseline is -15 stores inner = mid = -35. *)
Lemma degenerate_levels_not_strict :
  (s ← Detector.run trace_empty_calibration;
   Ok (Detector.mode s, Detector.perimeter_rssi_levels s))
  = Ok (Detector.MONITORING, [0; 0; -35]%Q)
  ∧ ¬ (0 < 0)%Q
  ∧ (s ← Detector.run trace_near_calibration;
     Ok (Detector.mode s, Detector.perimeter_rssi_levels s))
    = Ok (Detector.MONITORING, [-35; -35; -50]%Q)
  ∧ ¬ (-35 < -35)%Q.
Proof.
  split; [vm_compute; reflexivity|]. split; [lra|].
  split; [vm_compute; reflexivity|]. lra.
Qed.

(** C2, as the code has it.  In every reachable state whose perimeter levels
    are set, they are three levels in non-increasing order:
    inner >= mid >= outer.  The levels that the end of a calibration
    stores are strictly decreasing exactly when it ends with at least one
    baseline and the weakest baseline is neither -15 nor 0. *)
Theorem levels_non_increasing :
  (∀ evs s,
     Detector.run evs = Ok s →
     Detector.perimeter_rssi_levels s ≠ [] →
     ∃ p_inner p_mid p_outer,
       Detector.perimeter_rssi_levels s = [p_inner; p_mid; p_outer]
       ∧ (p_mid <= p_inner)%Q ∧ (p_outer <= p_mid)%Q)
  ∧ (∀ evs s now db s' effs,
       Detector.run evs = Ok s →
       Detector.mode s = Detector.CALIBRATING →
       (Detector.calibration_end_time s <= now)%Q →
       Detector.ui_update_loop now db s = Ok (s', effs) →
       ∃ p_inner p_mid p_outer,
         Detector.perimeter_rssi_levels s' = [p_inner; p_mid; p_outer]
         ∧ ((p_mid < p_inner)%Q ∧ (p_outer < p_mid)%Q ↔
            ∃ h hs, Detector.home_rssis (Detector.detected_beacons s') = h :: hs
                    ∧ ¬ (list_min h hs == -15)%Q ∧ ¬ (list_min h hs == 0)%Q)).
Proof.
  split.
  - intros evs s Hrun Hne.
    destruct (levels_set evs s Hrun Hne) as (_ & p_inner & p_mid & p_outer & Hlev & Ho & Hm).
    by exists p_inner, p_mid, p_outer.
  - intros evs s now db s' effs Hrun Hmode Hend Hloop.
    rewrite (calibration_pass now db s Hmode Hend) in Hloop.
    injection Hloop as <- _.
    cbn [Detector.detected_beacons Detector.perimeter_rssi_levels].
    destruct (Detector.home_rssis _) as [|h hs].
    + exists 0%Q, 0%Q, (-35)%Q. split; [apply perimeters_nil|]. split.
      * intros [? _]. lra.
      * intros (h & hs & ? & _). done.
    + rewrite perimeters_cons.
      destruct (sorted_reverse_3_strict (py_min (-35) (list_min h hs - 5))
                  (list_min h hs - 5 - 15) (list_min h hs - 5 - 30))
        as (x & y & z & -> & Hstrict).
      exists x, y, z. split; [done|].
      assert (Hiff : (z < y)%Q ∧ (y < x)%Q ↔
                     ¬ (list_min h hs == -15)%Q ∧ ¬ (list_min h hs == 0)%Q).
      { rewrite Hstrict.
        destruct (py_min_cases (-35) (list_min h hs - 5)) as [[-> Hle]|[-> Hlt]].
        - split.
          + intros (Hab & _ & Hac). split; intros Heq; [apply Hab|apply Hac]; lra.
          + intros [H15 H0]. repeat split; intros Heq; [apply H15|..|apply H0]; lra.
        - split.
          + intros _. split; intros Heq; lra.
          + intros _. repeat split; intros Heq; lra. }
      split.
      * intros [Hyx Hzy]. exists h, hs. split; [done|]. apply Hiff. done.
      * intros (h' & hs' & [= <- <-] & H15 & H0). apply and_comm. apply Hiff. done.
Qed.

(** The end of the calibration of [trace_calibrated]: the weakest baseline
    is -70 and the levels -75, -90, -105 are strictly decreasing. *)
Lemma levels_non_increasing_witness :
  Detector.run (trace_calibrating ++ [Detector.Tick 11 db_up]) = Ok pass_calibrated.1
  ∧ Detector.perimeter_rssi_levels pass_calibrated.1 ≠ []
  ∧ ∃ p_inner p_mid p_outer,
      Detector.perimeter_rssi_levels pass_calibrated.1 = [p_inner; p_mid; p_outer]
      ∧ (p_mid <= p_inner)%Q ∧ (p_outer <= p_mid)%Q.
Proof.
  assert (Hrun : Detector.run (trace_calibrating ++ [Detector.Tick 11 db_up])
                 = Ok pass_calibrated.1) by (vm_compute; reflexivity).
  assert (Hne : Detector.perimeter_rssi_levels pass_calibrated.1 ≠ [])
    by (intros H; discriminate H).
  split; [exact Hrun|]. split; [exact Hne|].
  exact (proj1 levels_non_increasing _ _ Hrun Hne).
Defined.

(** ** C5: averages and windows *)




(** ** C7: the start of a calibration *)




(** ** C8: eviction *)

Lemma pass_lookup_None (now : Q) (db : string → option string) (s s' : Detector.state)
    (effs : list Detector.effect) (k : string) :
  Detector.ui_update_loop now db s = Ok (s', effs) →
  Detector.detected_beacons s !! k ≫= Detector.sweep now = None →
  Detector.detected_beacons s' !! k = None.
Proof.
  intros Hloop Hnone.
  assert (Hsw : omap (Detector.sweep now) (Detector.detected_beacons s) !! k = None)
    by by rewrite lookup_omap.
  unfold Detector.ui_update_loop in Hloop.
  destruct (Detector.mode s).
  - injection Hloop as <- _. done.
  - destruct (Qltb 0 _).
    + injection Hloop as <- _. done.
    + destruct (Detector.perimeters _) as [levels log].
      injection Hloop as <- _. simpl. by rewrite lookup_fmap, Hsw.
  - destruct (Detector.perimeter_rssi_levels s) as [|a [|b [|c [|]]]]; try done.
    + injection Hloop as <- _. done.
    + injection Hloop as <- _. simpl. by rewrite map_lookup_imap, Hsw.
Qed.

Lemma pass_is_Ok (evs : list Detector.event) (s : Detector.state) (now : Q)
    (db : string → option string) :
  Detector.run evs = Ok s → is_Ok (Detector.ui_update_loop now db s).
Proof.
  intros Hrun. apply detector_run_inv in Hrun.
  destruct (detector_step_inv (Detector.Tick now db) s Hrun) as (s' & Hstep & _).
  simpl in Hstep. apply bind_Ok in Hstep as (r & Hr & _). by exists r.
Qed.

(** C8.  A pass of the loop of beacon_detector.py, in whatever mode, leaves
    no entry for a beacon that was last heard more than [BEACON_TIMEOUT]
    before the pass, and in a reachable state the pass does not raise.
    An advertisement of an address that is not tracked creates the record
    of a first detection: its window holds the one new sample, its baseline
    is undefined and its zone is NUEVO, whatever was tracked at that address
    before. *)
Theorem stale_beacon_is_forgotten :
  (∀ s now db s' effs k d,
     Detector.detected_beacons s !! k = Some d →
     (Detector.BEACON_TIMEOUT < now - default 0 (Detector.last_seen d))%Q →
     Detector.ui_update_loop now db s = Ok (s', effs) →
     Detector.detected_beacons s' !! k = None)
  ∧ (∀ evs s now db,
       Detector.run evs = Ok s → is_Ok (Detector.ui_update_loop now db s))
  ∧ (∀ now device adv s i,
       Detector.detected_beacons s !! address device = None →
       Detector.decode device adv = Ok (Some i) →
       ∃ s', Detector.detection_callback now device adv s = Ok s'
             ∧ Detector.detected_beacons s' !! address device
               = Some {| Detector.uuid := i.1; Detector.name := i.2;
                         Detector.readings := [rssi adv];
                         Detector.avg_rssi := Some (-100)%Q;
                         Detector.home_rssi := None;
                         Detector.status := Detector.NUEVO;
                         Detector.last_seen := Some now |}).
Proof.
  split; [|split].
  - intros s now db s' effs k d Hd Hlate Hloop.
    apply (pass_lookup_None now db s s' effs k Hloop).
    rewrite Hd. simpl. unfold Detector.sweep.
    apply Qltb_true in Hlate. by rewrite Hlate.
  - intros evs s now db. apply pass_is_Ok.
  - intros now device adv s i Hnone Hdec.
    destruct (detector_callback now device adv s) as (r & Hr & ->).
    rewrite Hdec in Hr. injection Hr as <-.
    eexists. split; [done|]. simpl. by rewrite lookup_insert_eq, Hnone.
Qed.

(** The pass at time 16 of the session of [trace_active] forgets the beacon
    at AA:00, last heard at time 0, and an advertisement at time 17 creates
    a record for it. *)
Lemma stale_beacon_is_forgotten_witness :
  Detector.mode state_active = Detector.CALIBRATING
  ∧ Detector.last_seen <$> Detector.detected_beacons state_active !! "AA:00"
    = Some (Some 0%Q)
  ∧ Detector.ui_update_loop 16 db_up state_active = Ok pass_stale
  ∧ Detector.detected_beacons pass_stale.1 !! "AA:00"%string = None
  ∧ ∃ s', Detector.detection_callback 17 dev_a (ibeacon_adv (-80)) pass_stale.1 = Ok s'
          ∧ Detector.home_rssi <$> Detector.detected_beacons s' !! "AA:00" = Some None
          ∧ Detector.status <$> Detector.detected_beacons s' !! "AA:00" = Some Detector.NUEVO
          ∧ Detector.readings <$> Detector.detected_beacons s' !! "AA:00" = Some [-80].
Proof.
  assert (Hloop : Detector.ui_update_loop 16 db_up state_active
                  = Ok (pass_stale.1, pass_stale.2)) by (vm_compute; reflexivity).
  assert (Hd : Detector.detected_beacons state_active !! "AA:00"%string
               = Some {| Detector.uuid := "0102030405060708090a0b0c0d0e0f10";
                         Detector.name := "tag";
                         Detector.readings := [-50];
                         Detector.avg_rssi := Some (-50)%Q;
                         Detector.home_rssi := None;
                         Detector.status := Detector.CALIBRANDO;
                         Detector.last_seen := Some 0%Q |}) by (vm_compute; reflexivity).
  assert (Hlate : (Detector.BEACON_TIMEOUT < 16 - default 0 (Some 0))%Q)
    by (vm_compute; reflexivity).
  pose proof (proj1 stale_beacon_is_forgotten _ _ _ _ _ _ _ Hd Hlate Hloop) as Hgone.
  split; [reflexivity|]. split; [vm_compute; reflexivity|].
  split; [exact Hloop|]. split; [exact Hgone|].
  destruct (proj2 (proj2 stale_beacon_is_forgotten) 17%Q dev_a (ibeacon_adv (-80))
              pass_stale.1 ("0102030405060708090a0b0c0d0e0f10"%string, "tag"%string) Hgone)
    as (s' & Hcb & Hnew).
  { vm_compute; reflexivity. }
  change (address dev_a) with "AA:00"%string in Hnew.
  exists s'. split; [exact Hcb|]. rewrite Hnew. repeat split.
Defined.

(** ** The reading window and the absence of exceptions *)

(** X1.  In every reachable state of either script the window of a tracked
    beacon holds at most [RSSI_SAMPLES_COUNT] samples. *)
Theorem window_bounded :
  (∀ evs db k d,
     Scanner.run evs = Ok db → db !! k = Some d →
     (length (Scanner.readings d) ≤ Scanner.RSSI_SAMPLES_COUNT)%nat)
  ∧ (∀ evs s k d,
       Detector.run evs = Ok s → Detector.detected_beacons s !! k = Some d →
       (length (Detector.readings d) ≤ Detector.RSSI_SAMPLES_COUNT)%nat).
Proof.
  split.
  - intros evs db k d Hrun Hd.
    by destruct (scanner_run_inv evs db Hrun k d Hd) as (_ & ? & _).
  - intros evs s k d Hrun Hd.
    destruct (detector_run_inv evs s Hrun) as (Hb & _).
    by destruct (Hb k d Hd) as (_ & ? & _).
Qed.



(** The window of the beacon of [trace_receding] holds two samples. *)
Lemma window_bounded_witness :
  Scanner.run trace_receding = Ok {[ "AA:00"%string := settled_seen ]}
  ∧ (length (Scanner.readings settled_seen) ≤ Scanner.RSSI_SAMPLES_COUNT)%nat.
Proof.
  assert (Hrun : Scanner.run trace_receding = Ok {[ "AA:00"%string := settled_seen ]})
    by (vm_compute; reflexivity).
  split; [exact Hrun|].
  apply (proj1 window_bounded _ _ "AA:00"%string _ Hrun). vm_compute; reflexivity.
Defined.


(** * Further properties of the two scripts *)

(** ** The decoder and the callbacks *)

Lemma match_ibeacon_ext (adv1 adv2 : advertisement_data) :
  manufacturer_data adv1 !! APPLE = manufacturer_data adv2 !! APPLE →
  match_ibeacon adv1 = match_ibeacon adv2.
Proof. intros H. by rewrite !match_ibeacon_spec, H. Qed.

(** X4.  The decoders read the entry of the company id 0x004C and nothing
    else of [manufacturer_data]: two advertisements with the same entry
    there are decoded alike, so adding, changing or removing the entry of
    any other company changes nothing. *)
Theorem decode_reads_only_apple_entry (device : ble_device)
    (adv1 adv2 : advertisement_data) :
  manufacturer_data adv1 !! APPLE = manufacturer_data adv2 !! APPLE →
  Scanner.decode adv1 = Scanner.decode adv2
  ∧ Detector.decode device adv1 = Detector.decode device adv2
  ∧ ∀ k b,
      k ≠ APPLE →
      Scanner.decode {| manufacturer_data := <[k:=b]> (manufacturer_data adv1);
                        rssi := rssi adv1 |} = Scanner.decode adv2
      ∧ Scanner.decode {| manufacturer_data := delete k (manufacturer_data adv1);
                          rssi := rssi adv1 |} = Scanner.decode adv2.
Proof.
  intros H. unfold Scanner.decode, Detector.decode.
  rewrite (match_ibeacon_ext adv1 adv2 H). split; [done|]. split; [done|].
  intros k b Hk. split.
  - rewrite (match_ibeacon_ext _ adv2); [done|].
    simpl. by rewrite lookup_insert_ne.
  - rewrite (match_ibeacon_ext _ adv2); [done|].
    simpl. by rewrite lookup_delete_ne.
Qed.

(** An advertisement that also carries an entry of the company id 0x0006. *)
Lemma decode_reads_only_apple_entry_witness :
  Scanner.decode {| manufacturer_data := <[6 := [x01; x09]]> {[ APPLE := payload ]};
                    rssi := -60 |}
  = Scanner.decode (ibeacon_adv (-60)).
Proof.
  apply (decode_reads_only_apple_entry dev_a
           {| manufacturer_data := <[6 := [x01; x09]]> {[ APPLE := payload ]}; rssi := -60 |}
           (ibeacon_adv (-60))).
  vm_compute; reflexivity.
Defined.



(** ** What a pass of the loop keeps *)

Lemma smooth_frame (d : Scanner.beacon) :
  Scanner.uuid (Scanner.smooth d) = Scanner.uuid d
  ∧ Scanner.major (Scanner.smooth d) = Scanner.major d
  ∧ Scanner.minor (Scanner.smooth d) = Scanner.minor d
  ∧ Scanner.readings (Scanner.smooth d) = Scanner.readings d
  ∧ Scanner.last_seen (Scanner.smooth d) = Scanner.last_seen d.
Proof. unfold Scanner.smooth. by case_bool_decide. Qed.

(** What a pass of beacon_detector.py leaves at [k], in whatever mode: the
    swept beacon, with at most its baseline and its zone changed. *)
Lemma pass_lookup (now : Q) (db : string → option string) (s s' : Detector.state)
    (effs : list Detector.effect) (k : string) :
  Detector.ui_update_loop now db s = Ok (s', effs) →
  match Detector.detected_beacons s !! k ≫= Detector.sweep now with
  | Some d1 =>
      ∃ d', Detector.detected_beacons s' !! k = Some d'
            ∧ Detector.uuid d' = Detector.uuid d1
            ∧ Detector.name d' = Detector.name d1
            ∧ Detector.readings d' = Detector.readings d1
            ∧ Detector.avg_rssi d' = Detector.avg_rssi d1
            ∧ Detector.last_seen d' = Detector.last_seen d1
  | None => Detector.detected_beacons s' !! k = None
  end.
Proof.
  intros Hloop.
  destruct (Detector.detected_beacons s !! k ≫= Detector.sweep now) as [d1|] eqn:Hk;
    [|by apply (pass_lookup_None now db s s' effs)].
  assert (Hsw : omap (Detector.sweep now) (Detector.detected_beacons s) !! k = Some d1)
    by by rewrite lookup_omap.
  unfold Detector.ui_update_loop in Hloop.
  destruct (Detector.mode s).
  - injection Hloop as <- _. by exists d1.
  - destruct (Qltb 0 _).
    + injection Hloop as <- _. by exists d1.
    + destruct (Detector.perimeters _) as [levels log].
      injection Hloop as <- _. simpl. rewrite lookup_fmap, Hsw. simpl.
      eexists. split; [done|]. unfold Detector.set_home.
      destruct (Detector.avg_rssi d1) eqn:E; simpl; rewrite ?E; repeat split; done.
  - destruct (Detector.perimeter_rssi_levels s) as [|a [|b [|c [|]]]]; try done.
    + injection Hloop as <- _. by exists d1.
    + injection Hloop as <- _. simpl. rewrite map_lookup_imap, Hsw. simpl.
      eexists. split; [done|]. unfold Detector.monitor.
      destruct (Detector.avg_rssi d1) eqn:E; [|done].
      case_bool_decide; simpl; rewrite ?E; repeat split; done.
Qed.

(** X6.  A pass of the loop keeps exactly the beacons heard no more than
    [BEACON_TIMEOUT] before it: one heard exactly [BEACON_TIMEOUT] ago
    stays, one heard earlier goes, and no beacon appears.  A beacon that
    stays keeps its identity, its window and the time it was last heard.
    This holds for beacon2.py and, in every mode, for
    beacon_detector.py. *)
Theorem pass_keeps_the_fresh_beacons :
  (∀ evs db now db' k,
     Scanner.run evs = Ok db → Scanner.main_loop now db = Ok db' →
     (is_Some (db' !! k) ↔
      ∃ d seen, db !! k = Some d ∧ Scanner.last_seen d = Some seen
                ∧ (now - seen <= Scanner.BEACON_TIMEOUT)%Q)
     ∧ ∀ d', db' !! k = Some d' →
         ∃ d, db !! k = Some d
              ∧ Scanner.uuid d' = Scanner.uuid d
              ∧ Scanner.major d' = Scanner.major d
              ∧ Scanner.minor d' = Scanner.minor d
              ∧ Scanner.readings d' = Scanner.readings d
              ∧ Scanner.last_seen d' = Scanner.last_seen d)
  ∧ (∀ evs s now db s' effs k,
       Detector.run evs = Ok s → Detector.ui_update_loop now db s = Ok (s', effs) →
       (is_Some (Detector.detected_beacons s' !! k) ↔
        ∃ d seen, Detector.detected_beacons s !! k = Some d
                  ∧ Detector.last_seen d = Some seen
                  ∧ (now - seen <= Detector.BEACON_TIMEOUT)%Q)
       ∧ ∀ d', Detector.detected_beacons s' !! k = Some d' →
           ∃ d, Detector.detected_beacons s !! k = Some d
                ∧ Detector.uuid d' = Detector.uuid d
                ∧ Detector.name d' = Detector.name d
                ∧ Detector.readings d' = Detector.readings d
                ∧ Detector.last_seen d' = Detector.last_seen d).
Proof.
  split.
  - intros evs db now db' k Hrun Hloop.
    apply scanner_run_inv in Hrun. rewrite scanner_main_loop in Hloop by done.
    injection Hloop as <-. rewrite lookup_omap. split.
    + destruct (db !! k) as [d|] eqn:Hd; simpl.
      * destruct (Hrun k d Hd) as (_ & _ & [seen Hseen] & _).
        unfold scanner_keep. rewrite Hseen. simpl.
        destruct (Qltb _ _) eqn:E; Qbool; split.
        -- by intros [? ?].
        -- intros (d0 & seen0 & [= <-] & Hs & Hle). rewrite Hseen in Hs.
           injection Hs as <-. lra.
        -- intros _. by exists d, seen.
        -- by eexists.
      * split; [by intros [? ?]|]. by intros (? & ? & ? & _).
    + intros d'. destruct (db !! k) as [d|] eqn:Hd; [|done]. simpl.
      unfold scanner_keep. destruct (Qltb _ _); [done|]. intros [= <-].
      exists d. split; [done|]. apply smooth_frame.
  - intros evs s now db s' effs k Hrun Hloop.
    destruct (detector_run_inv evs s Hrun) as (Hb & _).
    pose proof (pass_lookup now db s s' effs k Hloop) as Hk.
    destruct (Detector.detected_beacons s !! k) as [d|] eqn:Hd; simpl in Hk.
    + destruct (Hb k d Hd) as (_ & _ & [seen Hseen] & _).
      destruct (Detector.sweep now d) as [d1|] eqn:Hd1.
      * destruct Hk as (d' & Hd' & Hu & Hn & Hr & _ & Hl).
        destruct (sweep_Some now d d1 Hd1) as (_ & _ & Hr1 & Hl1 & _ & Hle).
        rewrite Hseen in Hle. simpl in Hle. split.
        -- split; [intros _; by exists d, seen|by eexists].
        -- intros d0. rewrite Hd'. intros [= <-]. exists d.
           assert (Detector.uuid d1 = Detector.uuid d ∧ Detector.name d1 = Detector.name d)
             as [Hu1 Hn1].
           { unfold Detector.sweep in Hd1. destruct (Qltb _ _); [done|].
             by case_bool_decide; injection Hd1 as <-. }
           by rewrite Hu, Hn, Hr, Hl, Hu1, Hn1, Hr1, Hl1.
      * rewrite Hk. split; [|done]. split; [by intros [? ?]|].
        intros (d0 & seen0 & [= <-] & Hs & Hle). rewrite Hseen in Hs.
        injection Hs as <-. unfold Detector.sweep in Hd1. rewrite Hseen in Hd1.
        simpl in Hd1. destruct (Qltb _ _) eqn:E; Qbool; [lra|].
        by case_bool_decide.
    + rewrite Hk. split; [|done]. split; [by intros [? ?]|].
      by intros (? & ? & ? & _).
Qed.

(** The beacon heard at time 0 stays at the pass of time 10. *)
Lemma pass_keeps_the_fresh_beacons_witness :
  Scanner.run [Scanner.Advert 0 dev_a (ibeacon_adv (-50))]
  = Ok {[ "AA:00"%string := scanner_first_seen ]}
  ∧ Scanner.main_loop 10 {[ "AA:00"%string := scanner_first_seen ]}
    = Ok {[ "AA:00"%string := Scanner.smooth scanner_first_seen ]}
  ∧ Scanner.main_loop (21 # 2) {[ "AA:00"%string := scanner_first_seen ]} = Ok ∅
  ∧ ∃ d seen,
      ({[ "AA:00"%string := scanner_first_seen ]} : gmap string Scanner.beacon)
        !! "AA:00"%string = Some d
      ∧ Scanner.last_seen d = Some seen
      ∧ (10 - seen <= Scanner.BEACON_TIMEOUT)%Q.
Proof.
  assert (Hrun : Scanner.run [Scanner.Advert 0 dev_a (ibeacon_adv (-50))]
                 = Ok {[ "AA:00"%string := scanner_first_seen ]})
    by (vm_compute; reflexivity).
  assert (Hloop : Scanner.main_loop 10 {[ "AA:00"%string := scanner_first_seen ]}
                  = Ok {[ "AA:00"%string := Scanner.smooth scanner_first_seen ]})
    by (vm_compute; reflexivity).
  split; [exact Hrun|]. split; [exact Hloop|]. split; [vm_compute; reflexivity|].
  apply (proj1 (proj1 (proj1 pass_keeps_the_fresh_beacons _ _ _ _ "AA:00"%string Hrun Hloop))).
  vm_compute. eexists. reflexivity.
Defined.

(** ** Induction over the reachable states *)

Lemma scanner_run_ind (P : gmap string Scanner.beacon → Prop) :
  P ∅ →
  (∀ ev db db', scanner_inv db → P db → Scanner.step ev db = Ok db' → P db') →
  ∀ evs db, Scanner.run evs = Ok db → P db.
Proof.
  intros Hinit Hstep evs.
  assert (Hgen : ∀ db0 db, scanner_inv db0 → P db0 →
                           Scanner.run_from db0 evs = Ok db → P db).
  { induction evs as [|ev evs IH]; intros db0 db Hinv HP Hrun.
    - by injection Hrun as <-.
    - unfold Scanner.run_from in Hrun. rewrite for_each_cons in Hrun.
      apply bind_Ok in Hrun as (db1 & Hs & Hrun).
      destruct (scanner_step_inv ev db0 Hinv) as (db1' & Hs' & Hinv1).
      rewrite Hs in Hs'. injection Hs' as <-.
      apply (IH db1 db Hinv1); [|done]. by apply (Hstep ev db0). }
  intros db. apply Hgen; [|done]. intros k d. by rewrite lookup_empty.
Qed.

Lemma detector_run_ind (P : Detector.state → Prop) :
  P Detector.APP_STATE →
  (∀ ev s s', detector_inv s → P s → Detector.step ev s = Ok s' → P s') →
  ∀ evs s, Detector.run evs = Ok s → P s.
Proof.
  intros Hinit Hstep evs.
  assert (Hgen : ∀ s0 s, detector_inv s0 → P s0 →
                         Detector.run_from s0 evs = Ok s → P s).
  { induction evs as [|ev evs IH]; intros s0 s Hinv HP Hrun.
    - by injection Hrun as <-.
    - unfold Detector.run_from in Hrun. rewrite for_each_cons in Hrun.
      apply bind_Ok in Hrun as (s1 & Hs & Hrun).
      destruct (detector_step_inv ev s0 Hinv) as (s1' & Hs' & Hinv1).
      rewrite Hs in Hs'. injection Hs' as <-.
      apply (IH s1 s Hinv1); [|done]. by apply (Hstep ev s0). }
  intros s. apply Hgen; [apply detector_init_inv|done].
Qed.

(** ** The trend and the two averages of beacon2.py *)

(** X7.  In every reachable registry of beacon2.py the trend of a beacon is
    'Calculando...' exactly as long as it has no previous average, and a beacon
    with a previous average has an average. *)
Theorem trend_known_iff_previous_average (evs : list Scanner.event)
    (db : gmap string Scanner.beacon) (k : string) (d : Scanner.beacon) :
  Scanner.run evs = Ok db → db !! k = Some d →
  (Scanner.trend d = Scanner.Calculando ↔ Scanner.prev_avg_rssi d = None)
  ∧ (is_Some (Scanner.prev_avg_rssi d) → is_Some (Scanner.avg_rssi d)).
Proof.
  intros Hrun. revert k d.
  apply (scanner_run_ind
           (λ db, ∀ k d, db !! k = Some d →
              (Scanner.trend d = Scanner.Calculando ↔ Scanner.prev_avg_rssi d = None)
              ∧ (is_Some (Scanner.prev_avg_rssi d) → is_Some (Scanner.avg_rssi d))))
    with (evs := evs); [| |done].
  - intros k d. by rewrite lookup_empty.
  - clear. intros ev db db' Hinv HP Hstep k d'.
    destruct ev as [now device adv|now]; simpl in Hstep.
    + destruct (scanner_callback now device adv db) as (r & _ & Heq).
      rewrite Heq in Hstep. injection Hstep as <-. destruct r as [i|]; [|apply HP].
      destruct (decide (k = address device)) as [->|Hne].
      * rewrite lookup_insert_eq. intros [= <-]. simpl.
        destruct (db !! address device) as [d|] eqn:Hd; simpl.
        -- by apply (HP (address device)).
        -- split; [done|]. by intros [? ?].
      * rewrite lookup_insert_ne by done. apply HP.
    + intros Hd'. destruct (scanner_tick_lookup now db db' k d' Hinv Hstep Hd')
        as (d & Hd & (Hne & _) & ->).
      destruct (HP k d Hd) as [Htr Hprev].
      destruct (smooth_nonempty d Hne) as [Havg Hcase]. rewrite Havg.
      split; [|by eexists].
      destruct (Scanner.avg_rssi d) as [a|] eqn:Ha.
      * destruct Hcase as [-> ->]. split; [|done].
        unfold Scanner.trend_of. by repeat destruct (Qltb _ _).
      * destruct Hcase as [-> Htrend].
        destruct (Scanner.prev_avg_rssi d) as [p|] eqn:Hp.
        -- destruct Hprev as [? ?]; [by eexists|done].
        -- rewrite (Htrend eq_refl). done.
Qed.

(** The beacon of [trace_approaching] after its second pass: a previous
    average and a known trend. *)
Lemma trend_known_iff_previous_average_witness :
  Scanner.run trace_approaching = Ok {[ "AA:00"%string := approaching_smoothed ]}
  ∧ (Scanner.trend approaching_smoothed = Scanner.Calculando ↔
     Scanner.prev_avg_rssi approaching_smoothed = None)
  ∧ is_Some (Scanner.avg_rssi approaching_smoothed).
Proof.
  assert (Hrun : Scanner.run trace_approaching
                 = Ok {[ "AA:00"%string := approaching_smoothed ]})
    by (vm_compute; reflexivity).
  assert (Hd : ({[ "AA:00"%string := approaching_smoothed ]} : gmap string Scanner.beacon)
               !! "AA:00"%string = Some approaching_smoothed) by (vm_compute; reflexivity).
  destruct (trend_known_iff_previous_average _ _ _ _ Hrun Hd) as [Hiff Hsome].
  split; [exact Hrun|]. split; [exact Hiff|]. apply Hsome. by eexists.
Defined.

(** ** The mean of a window *)

Lemma sum_bounds (l : list Z) (lo hi : Z) :
  Forall (λ x, lo ≤ x ≤ hi) l →
  lo * Z.of_nat (length l) ≤ sum l ≤ hi * Z.of_nat (length l).
Proof.
  induction 1 as [|x l Hx _ IH]; simpl sum; simpl length; [lia|].
  rewrite Nat2Z.inj_succ. lia.
Qed.

Lemma mean_bounds (l : list Z) (lo hi : Z) :
  l ≠ [] → Forall (λ x, lo ≤ x ≤ hi) l →
  (inject_Z lo <= mean l <= inject_Z hi)%Q.
Proof.
  intros Hne Hall. destruct (sum_bounds l lo hi Hall) as [Hlo Hhi].
  assert (Hlen : 0 < Z.of_nat (length l)) by (destruct l; [done|simpl; lia]).
  assert (HlenQ : (0 < inject_Z (Z.of_nat (length l)))%Q).
  { change 0%Q with (inject_Z 0). by rewrite <- Zlt_Qlt. }
  unfold mean. split.
  - apply Qle_shift_div_l; [done|]. rewrite <- inject_Z_mult. by rewrite <- Zle_Qle.
  - apply Qle_shift_div_r; [done|]. rewrite <- inject_Z_mult. by rewrite <- Zle_Qle.
Qed.

(** X8.  After a pass of the loop, the average of a tracked beacon lies
    between the weakest and the strongest sample of its window, in both
    scripts: smoothing never leaves the range of what was measured. *)
Theorem average_within_the_samples :
  (∀ evs db now db' k d' lo hi,
     Scanner.run evs = Ok db → Scanner.main_loop now db = Ok db' →
     db' !! k = Some d' →
     Forall (λ x, lo ≤ x ≤ hi) (Scanner.readings d') →
     ∃ a, Scanner.avg_rssi d' = Some a ∧ (inject_Z lo <= a <= inject_Z hi)%Q)
  ∧ (∀ evs s now db s' effs k d' lo hi,
       Detector.run evs = Ok s → Detector.ui_update_loop now db s = Ok (s', effs) →
       Detector.detected_beacons s' !! k = Some d' →
       Forall (λ x, lo ≤ x ≤ hi) (Detector.readings d') →
       ∃ a, Detector.avg_rssi d' = Some a ∧ (inject_Z lo <= a <= inject_Z hi)%Q).
Proof.
  split.
  - intros evs db now db' k d' lo hi Hrun Hloop Hd' Hall.
    apply scanner_run_inv in Hrun.
    destruct (scanner_tick_lookup now db db' k d' Hrun Hloop Hd')
      as (d & Hd & (Hne & _) & ->).
    destruct (smooth_nonempty d Hne) as [Havg _].
    rewrite smooth_readings in Hall.
    exists (mean (Scanner.readings d)). split; [done|]. by apply mean_bounds.
  - intros evs s now db s' effs k d' lo hi Hrun Hloop Hd' Hall.
    destruct (detector_run_inv evs s Hrun) as (Hb & _).
    pose proof (pass_lookup now db s s' effs k Hloop) as Hk.
    destruct (Detector.detected_beacons s !! k) as [d|] eqn:Hd; simpl in Hk;
      [|by rewrite Hk in Hd'].
    destruct (Detector.sweep now d) as [d1|] eqn:Hd1; [|by rewrite Hk in Hd'].
    destruct Hk as (d0 & Hd0 & _ & _ & Hr & Ha & _).
    rewrite Hd' in Hd0. injection Hd0 as <-.
    destruct (Hb k d Hd) as (Hne & _).
    destruct (sweep_Some now d d1 Hd1) as (_ & _ & Hr1 & _ & Havg & _).
    exists (mean (Detector.readings d)). split; [by rewrite Ha, (Havg Hne)|].
    apply mean_bounds; [done|]. by rewrite <- Hr1, <- Hr.
Qed.

(** The second pass of [trace_approaching]: the window [-60; -40] and the
    average -50. *)
Lemma average_within_the_samples_witness :
  ∃ a, Scanner.avg_rssi approaching_smoothed = Some a
       ∧ (inject_Z (-60) <= a <= inject_Z (-40))%Q.
Proof.
  assert (Hrun : Scanner.run [Scanner.Advert 0 dev_a (ibeacon_adv (-60)); Scanner.Tick 1;
                              Scanner.Advert 1 dev_a (ibeacon_adv (-40))]
                 = Ok {[ "AA:00"%string := approaching_seen ]})
    by (vm_compute; reflexivity).
  assert (Hloop : Scanner.main_loop 2 {[ "AA:00"%string := approaching_seen ]}
                  = Ok {[ "AA:00"%string := approaching_smoothed ]})
    by (vm_compute; reflexivity).
  assert (Hd' : ({[ "AA:00"%string := approaching_smoothed ]} : gmap string Scanner.beacon)
                !! "AA:00"%string = Some approaching_smoothed)
    by (vm_compute; reflexivity).
  apply (proj1 average_within_the_samples _ _ _ _ _ _ (-60) (-40) Hrun Hloop Hd').
  repeat constructor; lia.
Defined.

(** ** The window holds the latest samples *)

Section capped_append.
Context {A : Type} (n : nat) (f : list A → A → list A).
Context (Hf : ∀ l x, f l x = if bool_decide (n < length (l ++ [x]))%nat
                              then drop 1 (l ++ [x]) else l ++ [x]).

Lemma capped_append_step (l : list A) (x : A) :
  (0 < n)%nat → (length l ≤ n)%nat →
  f l x = drop (length (l ++ [x]) - n) (l ++ [x]) ∧ (length (f l x) ≤ n)%nat.
Proof.
  intros Hn Hl. rewrite Hf. rewrite length_app. simpl length.
  case_bool_decide as Hlen.
  - replace (length l + 1 - n)%nat with 1%nat by lia.
    split; [done|]. rewrite length_drop, length_app. simpl. lia.
  - replace (length l + 1 - n)%nat with 0%nat by lia.
    split; [done|]. rewrite length_app. simpl. lia.
Qed.

Lemma capped_append_fold (l xs : list A) :
  (0 < n)%nat → (length l ≤ n)%nat →
  foldl f l xs = drop (length (l ++ xs) - n) (l ++ xs)
  ∧ (length (foldl f l xs) ≤ n)%nat.
Proof.
  intros Hn. revert l. induction xs as [|x xs IH]; intros l Hl.
  - simpl. rewrite app_nil_r. replace (length l - n)%nat with 0%nat by lia. done.
  - simpl foldl. destruct (capped_append_step l x Hn Hl) as [Heq Hlen].
    destruct (IH (f l x) Hlen) as [IH1 IH2]. split; [|done].
    rewrite IH1, Heq. rewrite (cons_middle x l xs), app_assoc.
    rewrite !length_app, length_drop, !length_app. simpl length.
    destruct (decide (length l + 1 ≤ n)%nat) as [Hle|Hgt].
    + replace (length l + 1 - n)%nat with 0%nat by lia. simpl drop.
      f_equal. lia.
    + assert (length l = n) as Hfull by lia.
      replace (length l + 1 - n)%nat with 1%nat by lia.
      replace (length l + 1 - 1 + length xs - n)%nat with (length xs) by lia.
      replace (length l + 1 + length xs - n)%nat with (1 + length xs)%nat by lia.
      rewrite <- drop_drop. f_equal.
      destruct l as [|y l]; [simpl in Hfull; lia|done].
Qed.
End capped_append.

Lemma scanner_window_fold (k : string) (evs : list Scanner.event)
    (db0 db : gmap string Scanner.beacon) :
  Forall (sample_for k) evs → Scanner.run_from db0 evs = Ok db →
  scanner_window db k
  = foldl (λ w x, deque_append Scanner.RSSI_SAMPLES_COUNT x w)
      (scanner_window db0 k) (sample_of <$> evs).
Proof.
  revert db0. induction evs as [|ev evs IH]; intros db0 Hall Hrun.
  - by injection Hrun as <-.
  - apply Forall_cons in Hall as [Hev Hall].
    unfold Scanner.run_from in Hrun. rewrite for_each_cons in Hrun.
    apply bind_Ok in Hrun as (db1 & Hstep & Hrun).
    rewrite (IH db1 Hall Hrun). rewrite fmap_cons. simpl foldl. f_equal.
    destruct ev as [now device adv|now]; [|done].
    destruct Hev as [<- [i Hi]]. simpl in Hstep.
    destruct (scanner_callback now device adv db0) as (r & Hr & Heq).
    rewrite Hi in Hr. injection Hr as <-. rewrite Heq in Hstep. injection Hstep as <-.
    unfold scanner_window. rewrite lookup_insert_eq. simpl.
    by destruct (db0 !! address device).
Qed.

Lemma detector_window_fold (k : string) (evs : list Detector.event)
    (s0 s : Detector.state) :
  Forall (detector_sample_for k) evs → Detector.run_from s0 evs = Ok s →
  detector_window s k
  = foldl (λ w x, deque_append Detector.RSSI_SAMPLES_COUNT x w)
      (detector_window s0 k) (detector_sample_of <$> evs).
Proof.
  revert s0. induction evs as [|ev evs IH]; intros s0 Hall Hrun.
  - by injection Hrun as <-.
  - apply Forall_cons in Hall as [Hev Hall].
    unfold Detector.run_from in Hrun. rewrite for_each_cons in Hrun.
    apply bind_Ok in Hrun as (s1 & Hstep & Hrun).
    rewrite (IH s1 Hall Hrun). rewrite fmap_cons. simpl foldl. f_equal.
    destruct ev as [now device adv|now|now db]; [|done|done].
    destruct Hev as [<- [i Hi]]. simpl in Hstep.
    destruct (detector_callback now device adv s0) as (r & Hr & Heq).
    rewrite Hi in Hr. injection Hr as <-. rewrite Heq in Hstep. injection Hstep as <-.
    unfold detector_window. simpl. rewrite lookup_insert_eq. simpl.
    by destruct (Detector.detected_beacons s0 !! address device).
Qed.

(** X9.  From any reachable state, after a run of advertisements of one
    address that the decoder matches, the window of that address holds the
    latest [RSSI_SAMPLES_COUNT] of the samples it held followed by the new
    ones, oldest first: nothing is duplicated or reordered, and only the
    oldest samples are dropped.  This holds for both scripts. *)
Theorem window_holds_the_latest_samples :
  (∀ evs0 evs db0 db k,
     Scanner.run evs0 = Ok db0 →
     Forall (sample_for k) evs →
     Scanner.run (evs0 ++ evs) = Ok db →
     scanner_window db k
     = drop (length (scanner_window db0 k ++ (sample_of <$> evs))
             - Scanner.RSSI_SAMPLES_COUNT)
         (scanner_window db0 k ++ (sample_of <$> evs)))
  ∧ (∀ evs0 evs s0 s k,
       Detector.run evs0 = Ok s0 →
       Forall (detector_sample_for k) evs →
       Detector.run (evs0 ++ evs) = Ok s →
       detector_window s k
       = drop (length (detector_window s0 k ++ (detector_sample_of <$> evs))
               - Detector.RSSI_SAMPLES_COUNT)
           (detector_window s0 k ++ (detector_sample_of <$> evs))).
Proof.
  split.
  - intros evs0 evs db0 db k Hrun0 Hall Hrun.
    unfold Scanner.run, Scanner.run_from in Hrun. rewrite for_each_app in Hrun.
    unfold Scanner.run, Scanner.run_from in Hrun0. rewrite Hrun0 in Hrun. simpl in Hrun.
    rewrite (scanner_window_fold k evs db0 db Hall Hrun).
    apply (capped_append_fold Scanner.RSSI_SAMPLES_COUNT
             (λ w x, deque_append Scanner.RSSI_SAMPLES_COUNT x w)).
    + done.
    + unfold Scanner.RSSI_SAMPLES_COUNT. lia.
    + unfold scanner_window. destruct (db0 !! k) as [d|] eqn:Hd; simpl; [|lia].
      by destruct (scanner_run_inv evs0 db0 Hrun0 k d Hd) as (_ & ? & _).
  - intros evs0 evs s0 s k Hrun0 Hall Hrun.
    unfold Detector.run, Detector.run_from in Hrun. rewrite for_each_app in Hrun.
    unfold Detector.run, Detector.run_from in Hrun0. rewrite Hrun0 in Hrun. simpl in Hrun.
    rewrite (detector_window_fold k evs s0 s Hall Hrun).
    apply (capped_append_fold Detector.RSSI_SAMPLES_COUNT
             (λ w x, deque_append Detector.RSSI_SAMPLES_COUNT x w)).
    + done.
    + unfold Detector.RSSI_SAMPLES_COUNT. lia.
    + unfold detector_window.
      destruct (Detector.detected_beacons s0 !! k) as [d|] eqn:Hd; simpl; [|lia].
      destruct (detector_run_inv evs0 s0 Hrun0) as (Hb & _).
      by destruct (Hb k d Hd) as (_ & ? & _).
Qed.

(** Twelve samples -1, ..., -12 after the sample -50: the window holds
    -3, ..., -12. *)
Lemma window_holds_the_latest_samples_witness :
  Scanner.run [Scanner.Advert 0 dev_a (ibeacon_adv (-50))]
  = Ok {[ "AA:00"%string := scanner_first_seen ]}
  ∧ Scanner.run ([Scanner.Advert 0 dev_a (ibeacon_adv (-50))] ++ trace_twelve)
    = Ok {[ "AA:00"%string := scanner_twelve_seen ]}
  ∧ scanner_window {[ "AA:00"%string := scanner_twelve_seen ]} "AA:00"
    = drop (length ([-50] ++ (sample_of <$> trace_twelve)) - 10)
        ([-50] ++ (sample_of <$> trace_twelve)).
Proof.
  assert (Hrun0 : Scanner.run [Scanner.Advert 0 dev_a (ibeacon_adv (-50))]
                  = Ok {[ "AA:00"%string := scanner_first_seen ]})
    by (vm_compute; reflexivity).
  assert (Hall : Forall (sample_for "AA:00") trace_twelve).
  { repeat constructor; eexists; vm_compute; reflexivity. }
  assert (Hrun : Scanner.run ([Scanner.Advert 0 dev_a (ibeacon_adv (-50))] ++ trace_twelve)
                 = Ok {[ "AA:00"%string := scanner_twelve_seen ]})
    by (vm_compute; reflexivity).
  split; [exact Hrun0|]. split; [exact Hrun|].
  exact (proj1 window_holds_the_latest_samples _ _ _ _ "AA:00"%string Hrun0 Hall Hrun).
Defined.

(** ** Modes, levels, baselines and zones *)

Lemma sweep_frame (now : Q) (d d1 : Detector.beacon) :
  Detector.sweep now d = Some d1 →
  Detector.home_rssi d1 = Detector.home_rssi d ∧ Detector.status d1 = Detector.status d.
Proof. intros H. by destruct (sweep_Some now d d1 H) as (-> & -> & _). Qed.

Lemma lifecycle_set_beacons (s : Detector.state) (db : gmap string Detector.beacon) :
  lifecycle_ok s →
  (∀ k d', db !! k = Some d' →
     ∃ d, Detector.detected_beacons s !! k = Some d
          ∧ Detector.home_rssi d' = Detector.home_rssi d
          ∧ Detector.status d' = Detector.status d) →
  lifecycle_ok (Detector.set_beacons db s).
Proof.
  intros [Hlev Hb] Hdb. split; [done|]. simpl. intros k d' Hd'.
  destruct (Hdb k d' Hd') as (d & Hd & -> & ->). by apply (Hb k).
Qed.

Lemma lifecycle_step (ev : Detector.event) (s s' : Detector.state) :
  detector_inv s → lifecycle_ok s → Detector.step ev s = Ok s' → lifecycle_ok s'.
Proof.
  intros Hinv Hlife Hstep. pose proof Hlife as [Hlev Hb].
  destruct ev as [now device adv|now|now db]; simpl in Hstep.
  - destruct (detector_callback now device adv s) as (r & _ & Heq).
    rewrite Heq in Hstep. injection Hstep as <-. destruct r as [i|]; [|done].
    split; [done|]. simpl. intros k d'.
    destruct (decide (k = address device)) as [->|Hne].
    + rewrite lookup_insert_eq. intros [= <-]. simpl.
      destruct (Detector.detected_beacons s !! address device) as [d|] eqn:Hd; simpl.
      * by apply (Hb (address device)).
      * split; [by intros [? ?]|]. split; [done|]. by left.
    + rewrite lookup_insert_ne by done. apply Hb.
  - injection Hstep as <-. unfold Detector.click_calibrate.
    destruct (Detector.calibrate_button_disabled s); [done|]. simpl.
    split; [done|]. simpl. intros k d'. rewrite lookup_fmap.
    destruct (Detector.detected_beacons s !! k) as [d|]; [|done].
    intros [= <-]. simpl. split; [by intros [? ?]|]. split; [done|]. by right.
  - apply bind_Ok in Hstep as ([s1 effs] & Hloop & [= <-]). simpl.
    assert (Hsw : ∀ k d', omap (Detector.sweep now) (Detector.detected_beacons s) !! k = Some d' →
              ∃ d, Detector.detected_beacons s !! k = Some d
                   ∧ Detector.home_rssi d' = Detector.home_rssi d
                   ∧ Detector.status d' = Detector.status d).
    { intros k d'. rewrite lookup_omap.
      destruct (Detector.detected_beacons s !! k) as [d|]; [|done]. simpl.
      intros Hd. exists d. split; [done|]. by apply (sweep_frame now). }
    unfold Detector.ui_update_loop in Hloop.
    destruct (Detector.mode s) eqn:Hmode.
    + injection Hloop as <- _. by apply lifecycle_set_beacons.
    + destruct (Qltb 0 _).
      * injection Hloop as <- _. by apply lifecycle_set_beacons.
      * destruct (Detector.perimeters _) as [levels log] eqn:Hper.
        injection Hloop as <- _. split; simpl.
        -- split; [intros _|done].
           destruct (perimeters_levels_ok
                       (Detector.home_rssis (Detector.set_home <$>
                          omap (Detector.sweep now) (Detector.detected_beacons s))))
             as (x & y & z & Heq & _).
           rewrite Hper in Heq. simpl in Heq. by rewrite Heq.
        -- intros k d' _. done.
    + destruct (Detector.perimeter_rssi_levels s) as [|a [|b [|c [|]]]] eqn:Hl; try done.
      * injection Hloop as <- _. apply lifecycle_set_beacons; [|done].
        split; [by rewrite Hmode, Hl|]. by rewrite Hmode.
      * injection Hloop as <- _. split; simpl; [by rewrite Hmode, Hl|].
        intros k d' _. by rewrite Hmode.
Qed.

Lemma step_leaves_idle_for_good (ev : Detector.event) (s s' : Detector.state) :
  Detector.step ev s = Ok s' → Detector.mode s ≠ Detector.IDLE →
  Detector.mode s' ≠ Detector.IDLE.
Proof.
  intros Hstep Hmode. destruct ev as [now device adv|now|now db]; simpl in Hstep.
  - destruct (detector_callback now device adv s) as (r & _ & Heq).
    rewrite Heq in Hstep. injection Hstep as <-. by destruct r.
  - injection Hstep as <-. unfold Detector.click_calibrate.
    by destruct (Detector.calibrate_button_disabled s).
  - apply bind_Ok in Hstep as ([s1 effs] & Hloop & [= <-]). simpl.
    unfold Detector.ui_update_loop in Hloop.
    destruct (Detector.mode s) eqn:Hm; [done| |].
    + destruct (Qltb 0 _).
      * injection Hloop as <- _. simpl. by rewrite Hm.
      * destruct (Detector.perimeters _). by injection Hloop as <- _.
    + destruct (Detector.perimeter_rssi_levels s) as [|a [|b [|c [|]]]]; try done;
        injection Hloop as <- _; simpl; by rewrite Hm.
Qed.

(** X10.  In every reachable state of beacon_detector.py: the mode is
    MONITORING exactly when the levels are set (so the test of the levels
    in the monitoring branch never fails); a beacon has a baseline only in
    monitoring mode; before the first calibration every beacon is NUEVO;
    during a calibration every beacon is NUEVO or CALIBRANDO, so the four
    zones appear only in monitoring mode.  And once the mode has left
    IDLE, no sequence of events brings it back. *)
Theorem lifecycle_of_the_detector :
  (∀ evs s, Detector.run evs = Ok s → lifecycle_ok s)
  ∧ (∀ evs1 evs2 s1 s2,
       Detector.run evs1 = Ok s1 → Detector.run (evs1 ++ evs2) = Ok s2 →
       Detector.mode s1 ≠ Detector.IDLE → Detector.mode s2 ≠ Detector.IDLE).
Proof.
  split.
  - apply detector_run_ind.
    + split; [done|]. intros k d. simpl. by rewrite lookup_empty.
    + intros ev s s'. apply lifecycle_step.
  - intros evs1 evs2 s1 s2 Hrun1 Hrun2.
    unfold Detector.run, Detector.run_from in *.
    rewrite for_each_app, Hrun1 in Hrun2. simpl in Hrun2. clear Hrun1.
    revert s1 Hrun2. induction evs2 as [|ev evs2 IH]; intros s1 Hrun2 Hmode.
    + by injection Hrun2 as <-.
    + rewrite for_each_cons in Hrun2. apply bind_Ok in Hrun2 as (s & Hstep & Hrun2).
      apply (IH s Hrun2). by apply (step_leaves_idle_for_good ev s1).
Qed.

(** The session of [trace_active]: no level is set, no beacon has a
    baseline, and the beacon first heard during the session is NUEVO. *)
Lemma lifecycle_of_the_detector_witness :
  Detector.run trace_active = Ok state_active
  ∧ Detector.mode state_active = Detector.CALIBRATING
  ∧ Detector.perimeter_rssi_levels state_active = []
  ∧ lifecycle_ok state_active.
Proof.
  assert (Hrun : Detector.run trace_active = Ok state_active) by (vm_compute; reflexivity).
  split; [exact Hrun|]. split; [reflexivity|]. split; [reflexivity|].
  exact (proj1 lifecycle_of_the_detector _ _ Hrun).
Defined.

(** ** The store and the state *)

Lemma monitor_state_any_store (p_inner p_mid p_outer : Q) (db1 db2 : string → option string)
    (k : string) (d : Detector.beacon) :
  (Detector.monitor p_inner p_mid p_outer db1 k d).1
  = (Detector.monitor p_inner p_mid p_outer db2 k d).1
  ∧ zone_changes (Detector.monitor p_inner p_mid p_outer db1 k d).2
    = zone_changes (Detector.monitor p_inner p_mid p_outer db2 k d).2.
Proof.
  unfold Detector.monitor, Detector.log_zone_change_event.
  destruct (Detector.avg_rssi d); [|done].
  case_bool_decide; [|done]. simpl. split; [done|]. f_equal.
  case_bool_decide; [|done].
  by destruct (db1 k), (db2 k).
Qed.

Lemma monitor_store_down (p_inner p_mid p_outer : Q) (db : string → option string)
    (k : string) (d : Detector.beacon) :
  is_Some (db k) →
  Forall (λ e, is_insert e = false) (Detector.monitor p_inner p_mid p_outer db k d).2.
Proof.
  intros [e He]. unfold Detector.monitor, Detector.log_zone_change_event.
  destruct (Detector.avg_rssi d); [|by constructor].
  case_bool_decide; [|by constructor]. simpl.
  case_bool_decide; rewrite ?He; repeat constructor.
Qed.

Lemma zone_changes_app (l1 l2 : list Detector.effect) :
  zone_changes (l1 ++ l2) = zone_changes l1 ++ zone_changes l2.
Proof. apply omap_app. Qed.

(** X11.  What the store answers never changes what a pass does to the
    state or which changes of zone it logs: the same pass with another
    store gives the same state and the same changes.  A pass during which
    every connection is refused stores no row. *)
Theorem store_does_not_touch_the_state (now : Q) (db1 db2 : string → option string)
    (s s1 : Detector.state) (effs1 : list Detector.effect) :
  Detector.ui_update_loop now db1 s = Ok (s1, effs1) →
  ∃ effs2,
    Detector.ui_update_loop now db2 s = Ok (s1, effs2)
    ∧ zone_changes effs2 = zone_changes effs1
    ∧ ((∀ k, is_Some (db2 k)) → Forall (λ e, is_insert e = false) effs2).
Proof.
  unfold Detector.ui_update_loop.
  destruct (Detector.mode s).
  - intros [= <- <-]. eexists. split; [done|]. split; [done|]. by constructor.
  - destruct (Qltb 0 _).
    + intros [= <- <-]. eexists. split; [done|]. split; [done|]. by constructor.
    + destruct (Detector.perimeters _) as [levels log] eqn:Hper.
      intros [= <- <-]. eexists. split; [done|]. split; [done|].
      intros _. constructor; [done|].
      unfold Detector.perimeters in Hper.
      destruct (Detector.home_rssis _); injection Hper as _ <-; repeat constructor.
  - destruct (Detector.perimeter_rssi_levels s) as [|a [|b [|c [|]]]]; try done.
    + intros [= <- <-]. eexists. split; [done|]. split; [done|]. by constructor.
    + simpl. intros [= <- <-]. eexists. split; [|split].
      * f_equal. f_equal. f_equal. apply map_eq. intros k.
        rewrite !map_lookup_imap.
        destruct (omap _ _ !! k) as [d|]; [|done]. simpl.
        f_equal. apply monitor_state_any_store.
      * induction (map_to_list _) as [|[k d] l IH]; [done|].
        rewrite !fmap_cons. simpl concat. rewrite !zone_changes_app, IH. f_equal.
        apply monitor_state_any_store.
      * intros Hdown. apply Forall_concat, Forall_fmap, Forall_forall.
        intros [k d] _. simpl. by apply monitor_store_down.
Qed.

(** The pass at time 13 after [trace_moved], with the store up and with the
    store down: the same state, the same two changes of zone, and no row
    when the store is down. *)
Lemma store_does_not_touch_the_state_witness :
  Detector.ui_update_loop 13 db_up state_moved = Ok pass_moved
  ∧ ∃ effs2,
      Detector.ui_update_loop 13 db_down state_moved = Ok (pass_moved.1, effs2)
      ∧ zone_changes effs2
        = [("AA:00"%string, Detector.ZONA_1, Detector.ZONA_2);
           ("DD:00"%string, Detector.NUEVO, Detector.FUERA)]
      ∧ Forall (λ e, is_insert e = false) effs2.
Proof.
  assert (Hloop : Detector.ui_update_loop 13 db_up state_moved
                  = Ok (pass_moved.1, pass_moved.2)) by (vm_compute; reflexivity).
  split; [exact Hloop|].
  destruct (store_does_not_touch_the_state 13 db_up db_down _ _ _ Hloop)
    as (effs2 & Hloop2 & Hchanges & Hdown).
  exists effs2. split; [exact Hloop2|]. split.
  - rewrite Hchanges. vm_compute. reflexivity.
  - apply Hdown. intros k. by eexists.
Defined.

(** ** A pass that follows a pass *)

Lemma set_avg_same (d : Detector.beacon) (a : Q) :
  Detector.avg_rssi d = Some a → Detector.set_avg a d = d.
Proof. destruct d. simpl. by intros ->. Qed.

Lemma set_beacons_same (s : Detector.state) :
  Detector.set_beacons (Detector.detected_beacons s) s = s.
Proof. by destruct s. Qed.

Lemma sweep_settled (now : Q) (d : Detector.beacon) :
  Detector.avg_rssi d = Some (mean (Detector.readings d)) →
  (now - default 0 (Detector.last_seen d) <= Detector.BEACON_TIMEOUT)%Q →
  Detector.sweep now d = Some d.
Proof.
  intros Havg Hfresh. unfold Detector.sweep.
  apply Qltb_false in Hfresh. rewrite Hfresh.
  case_bool_decide; [|done]. by rewrite set_avg_same.
Qed.

Lemma monitor_settled (p_inner p_mid p_outer : Q) (db : string → option string)
    (k : string) (d : Detector.beacon) (a : Q) :
  Detector.avg_rssi d = Some a →
  Detector.status d = Detector.zone_of p_inner p_mid p_outer a →
  Detector.monitor p_inner p_mid p_outer db k d = (d, []).
Proof.
  intros Ha Hz. unfold Detector.monitor. rewrite Ha, Hz.
  by rewrite bool_decide_false by (intros H; by apply H).
Qed.

(** What holds of the beacons after a pass that did not end a calibration:
    the average is the mean of the window and, with the levels set, the
    zone is the zone of the average. *)
Lemma after_a_pass (evs : list Detector.event) (s s' : Detector.state) (now : Q)
    (db : string → option string) (effs : list Detector.effect) :
  Detector.run evs = Ok s → Detector.ui_update_loop now db s = Ok (s', effs) →
  Detector.mode s' = Detector.mode s →
  Detector.calibration_end_time s' = Detector.calibration_end_time s
  ∧ Detector.perimeter_rssi_levels s' = Detector.perimeter_rssi_levels s
  ∧ Detector.calibrate_button_disabled s' = Detector.calibrate_button_disabled s
  ∧ ∀ k d', Detector.detected_beacons s' !! k = Some d' →
      Detector.avg_rssi d' = Some (mean (Detector.readings d'))
      ∧ ∀ p_inner p_mid p_outer,
          Detector.perimeter_rssi_levels s = [p_inner; p_mid; p_outer] →
          Detector.status d'
          = Detector.zone_of p_inner p_mid p_outer (mean (Detector.readings d')).
Proof.
  intros Hrun Hloop Hmode.
  destruct (detector_run_inv evs s Hrun) as (Hb & Hlev & _ & Hmon).
  assert (Havg : ∀ k d', Detector.detected_beacons s' !! k = Some d' →
            Detector.avg_rssi d' = Some (mean (Detector.readings d'))).
  { intros k d' Hd'. pose proof (pass_lookup now db s s' effs k Hloop) as Hk.
    destruct (Detector.detected_beacons s !! k) as [d|] eqn:Hd; simpl in Hk;
      [|by rewrite Hk in Hd'].
    destruct (Detector.sweep now d) as [d1|] eqn:Hd1; [|by rewrite Hk in Hd'].
    destruct Hk as (d0 & Hd0 & _ & _ & Hr & Ha & _).
    rewrite Hd' in Hd0. injection Hd0 as <-.
    destruct (Hb k d Hd) as (Hne & _).
    destruct (sweep_Some now d d1 Hd1) as (_ & _ & Hr1 & _ & Havg1 & _).
    by rewrite Ha, Hr, Hr1, (Havg1 Hne). }
  assert (Hnolev : Detector.mode s ≠ Detector.MONITORING →
            ∀ p_inner p_mid p_outer,
              Detector.perimeter_rssi_levels s ≠ [p_inner; p_mid; p_outer]).
  { intros Hnm p_inner p_mid p_outer Hl. apply Hnm, Hmon. by rewrite Hl. }
  unfold Detector.ui_update_loop in Hloop.
  destruct (Detector.mode s) eqn:Hm.
  - injection Hloop as Hs' _. subst s'.
    split; [done|]. split; [done|]. split; [done|].
    intros k d' Hd'. split; [by apply (Havg k)|].
    intros p_inner p_mid p_outer Hl. by destruct (Hnolev ltac:(done) _ _ _ Hl).
  - destruct (Qltb 0 _).
    + injection Hloop as Hs' _. subst s'.
      split; [done|]. split; [done|]. split; [done|].
      intros k d' Hd'. split; [by apply (Havg k)|].
      intros p_inner p_mid p_outer Hl. by destruct (Hnolev ltac:(done) _ _ _ Hl).
    + destruct (Detector.perimeters _). injection Hloop as Hs' _. by subst s'.
  - destruct (Detector.perimeter_rssi_levels s) as [|a [|b [|c [|]]]] eqn:Hl; try done.
    + injection Hloop as Hs' _. subst s'.
      split; [done|]. split; [done|]. split; [done|].
      intros k d' Hd'. split; [by apply (Havg k)|]. done.
    + injection Hloop as Hs' _. subst s'.
      split; [done|]. split; [done|]. split; [done|].
      intros k d' Hd'. split; [by apply (Havg k)|].
      intros p_inner p_mid p_outer [= <- <- <-].
      pose proof (Havg k d' Hd') as Ha. simpl in Hd'. rewrite monitoring_lookup in Hd'.
      destruct (Detector.detected_beacons s !! k) as [d|]; [|done]. simpl in Hd'.
      destruct (Detector.sweep now d) as [d1|] eqn:Hd1; [|done]. simpl in Hd'.
      injection Hd' as <-.
      destruct (Detector.avg_rssi d1) as [r|] eqn:Hr.
      * destruct (monitor_status a b c db k d1 r Hr) as [Hst Hav].
        rewrite Hav in Ha. injection Ha as Ha. by rewrite <- Ha.
      * unfold Detector.monitor in Ha. rewrite Hr in Ha. simpl in Ha.
        by rewrite Hr in Ha.
Qed.

(** X12.  A pass that follows a pass, with no event in between, changes
    nothing and logs nothing, provided the first pass did not end a
    calibration, the second does not end one, and no beacon has gone stale
    in the meantime.  So a change of zone is reported once, by the pass
    that finds it. *)
Theorem pass_after_pass_is_silent (evs : list Detector.event) (s s' : Detector.state)
    (now now2 : Q) (db db2 : string → option string) (effs : list Detector.effect) :
  Detector.run evs = Ok s →
  Detector.ui_update_loop now db s = Ok (s', effs) →
  Detector.mode s' = Detector.mode s →
  (Detector.mode s' = Detector.CALIBRATING → (now2 < Detector.calibration_end_time s')%Q) →
  (∀ k d, Detector.detected_beacons s' !! k = Some d →
          (now2 - default 0 (Detector.last_seen d) <= Detector.BEACON_TIMEOUT)%Q) →
  Detector.ui_update_loop now2 db2 s' = Ok (s', []).
Proof.
  intros Hrun Hloop Hmode Hend Hfresh.
  destruct (after_a_pass evs s s' now db effs Hrun Hloop Hmode)
    as (_ & Hlev & _ & Hb').
  destruct (detector_run_inv evs s Hrun) as (_ & Hlevok & _).
  assert (Hsw : omap (Detector.sweep now2) (Detector.detected_beacons s')
                = Detector.detected_beacons s').
  { apply map_eq. intros k. rewrite lookup_omap.
    destruct (Detector.detected_beacons s' !! k) as [d|] eqn:Hd; [|done]. simpl.
    apply sweep_settled; [by apply (Hb' k)|by apply (Hfresh k)]. }
  unfold Detector.ui_update_loop. rewrite Hsw.
  destruct (Detector.mode s') eqn:Hm.
  - by rewrite set_beacons_same.
  - specialize (Hend eq_refl).
    assert (Qltb 0 (Detector.calibration_end_time s' - now2) = true) as ->
      by (apply Qltb_true; lra).
    by rewrite set_beacons_same.
  - rewrite Hlev.
    destruct Hlevok as [Hnil|(p_inner & p_mid & p_outer & Heq & _)].
    + rewrite Hnil. by rewrite set_beacons_same.
    + rewrite Heq. unfold Detector.monitor_all.
      assert (Hmap : map_imap (λ key data,
                        Some (Detector.monitor p_inner p_mid p_outer db2 key data).1)
                       (Detector.detected_beacons s') = Detector.detected_beacons s').
      { apply map_eq. intros k. rewrite map_lookup_imap.
        destruct (Detector.detected_beacons s' !! k) as [d|] eqn:Hd; [|done]. simpl.
        destruct (Hb' k d Hd) as [Ha Hz].
        by rewrite (monitor_settled _ _ _ _ _ _ _ Ha (Hz _ _ _ Heq)). }
      assert (Heffs : concat ((λ kd, (Detector.monitor p_inner p_mid p_outer db2 kd.1 kd.2).2)
                                <$> map_to_list (Detector.detected_beacons s')) = []).
      { assert (Hall : ∀ kd, kd ∈ map_to_list (Detector.detected_beacons s') →
                   (Detector.monitor p_inner p_mid p_outer db2 kd.1 kd.2).2 = []).
        { intros [k d] Hin. apply elem_of_map_to_list in Hin.
          destruct (Hb' k d Hin) as [Ha Hz]. simpl.
          by rewrite (monitor_settled _ _ _ _ _ _ _ Ha (Hz _ _ _ Heq)). }
        induction (map_to_list _) as [|kd l IH]; [done|].
        rewrite fmap_cons. simpl concat. rewrite (Hall kd) by left.
        apply IH. intros kd' Hin. apply Hall. by right. }
      rewrite Hmap, Heffs. by rewrite set_beacons_same.
Qed.

(** The pass at time 13 after [trace_moved], and one more pass at time 14:
    the first logs two changes and stores a row, the second is silent. *)
Lemma pass_after_pass_is_silent_witness :
  Detector.run trace_moved = Ok state_moved
  ∧ Detector.ui_update_loop 13 db_up state_moved = Ok pass_moved
  ∧ length pass_moved.2 = 5%nat
  ∧ Detector.ui_update_loop 14 db_up pass_moved.1 = Ok (pass_moved.1, []).
Proof.
  assert (Hrun : Detector.run trace_moved = Ok state_moved) by (vm_compute; reflexivity).
  assert (Hloop : Detector.ui_update_loop 13 db_up state_moved
                  = Ok (pass_moved.1, pass_moved.2)) by (vm_compute; reflexivity).
  split; [exact Hrun|]. split; [exact Hloop|]. split; [reflexivity|].
  apply (pass_after_pass_is_silent _ _ _ 13 14 db_up db_up _ Hrun Hloop).
  - reflexivity.
  - intros H. discriminate H.
  - apply (proj2 (map_Forall_to_list
                    (λ _ d, (14 - default 0 (Detector.last_seen d)
                             <= Detector.BEACON_TIMEOUT)%Q) _)).
    vm_compute.
    repeat (apply Forall_cons_2; [discriminate|]). apply Forall_nil_2.
Defined.

(** ** Zones follow the strength of the signal *)

Lemma zone_of_monotone (p_inner p_mid p_outer r1 r2 : Q) :
  (p_outer <= p_mid)%Q → (p_mid <= p_inner)%Q → (r1 <= r2)%Q →
  (zone_rank (Detector.zone_of p_inner p_mid p_outer r2)
   ≤ zone_rank (Detector.zone_of p_inner p_mid p_outer r1))%nat
  ∧ (1 ≤ zone_rank (Detector.zone_of p_inner p_mid p_outer r2))%nat.
Proof.
  intros Ho Hm Hr. unfold Detector.zone_of.
  destruct (Qle_bool p_inner r1) eqn:A1; destruct (Qle_bool p_inner r2) eqn:A2;
    destruct (Qle_bool p_mid r1) eqn:B1; destruct (Qle_bool p_mid r2) eqn:B2;
    destruct (Qle_bool p_outer r1) eqn:C1; destruct (Qle_bool p_outer r2) eqn:C2;
    destruct (Qltb r1 p_inner) eqn:D1; destruct (Qltb r2 p_inner) eqn:D2;
    destruct (Qltb r1 p_mid) eqn:E1; destruct (Qltb r2 p_mid) eqn:E2;
    simpl; Qbool; try (exfalso; lra); split; lia.
Qed.

(** X13.  After a pass with the levels set, every tracked beacon is in one
    of the four zones, and of two tracked beacons the one with the
    stronger average is never in a farther zone than the other; two
    beacons with equal averages are in the same zone. *)
Theorem stronger_signal_nearer_zone (evs : list Detector.event) (s s' : Detector.state)
    (now : Q) (db : string → option string) (effs : list Detector.effect)
    (k1 k2 : string) (d1 d2 : Detector.beacon) (a1 a2 : Q) :
  Detector.run evs = Ok s →
  Detector.perimeter_rssi_levels s ≠ [] →
  Detector.ui_update_loop now db s = Ok (s', effs) →
  Detector.detected_beacons s' !! k1 = Some d1 →
  Detector.detected_beacons s' !! k2 = Some d2 →
  Detector.avg_rssi d1 = Some a1 → Detector.avg_rssi d2 = Some a2 →
  (a1 <= a2)%Q →
  (1 ≤ zone_rank (Detector.status d2) ≤ zone_rank (Detector.status d1))%nat
  ∧ ((a1 == a2)%Q → Detector.status d1 = Detector.status d2).
Proof.
  intros Hrun Hne Hloop Hd1 Hd2 Ha1 Ha2 Hle.
  destruct (levels_set evs s Hrun Hne) as (Hmode & p_inner & p_mid & p_outer & Hlev & Ho & Hm).
  assert (Hsame : Detector.mode s' = Detector.mode s).
  { rewrite (monitoring_pass now db s p_inner p_mid p_outer Hmode Hlev) in Hloop.
    by injection Hloop as <- _. }
  destruct (after_a_pass evs s s' now db effs Hrun Hloop Hsame) as (_ & _ & _ & Hb').
  destruct (Hb' k1 d1 Hd1) as [Hm1 Hz1]. destruct (Hb' k2 d2 Hd2) as [Hm2 Hz2].
  rewrite Ha1 in Hm1. injection Hm1 as Hm1. rewrite Ha2 in Hm2. injection Hm2 as Hm2.
  rewrite (Hz1 _ _ _ Hlev), (Hz2 _ _ _ Hlev), <- Hm1, <- Hm2.
  destruct (zone_of_monotone p_inner p_mid p_outer a1 a2 Ho Hm Hle) as [Hmono Hzone].
  split; [lia|]. intros Heq.
  destruct (zone_of_monotone p_inner p_mid p_outer a2 a1 Ho Hm) as [Hmono' Hzone'];
    [lra|].
  destruct (Detector.zone_of p_inner p_mid p_outer a1),
    (Detector.zone_of p_inner p_mid p_outer a2); simpl in *; try done; lia.
Qed.

(** The pass at time 13 after [trace_moved]: the beacon at AA:00 has the
    average -80 and is in ZONA 2, the beacon at BB:00 has the average -60
    and is in ZONA 1. *)
Lemma stronger_signal_nearer_zone_witness :
  Detector.run trace_moved = Ok state_moved
  ∧ Detector.ui_update_loop 13 db_up state_moved = Ok pass_moved
  ∧ (Detector.status <$> Detector.detected_beacons pass_moved.1 !! "AA:00")
    = Some Detector.ZONA_2
  ∧ (Detector.status <$> Detector.detected_beacons pass_moved.1 !! "BB:00")
    = Some Detector.ZONA_1
  ∧ (1 ≤ zone_rank Detector.ZONA_1 ≤ zone_rank Detector.ZONA_2)%nat.
Proof.
  assert (Hrun : Detector.run trace_moved = Ok state_moved) by (vm_compute; reflexivity).
  assert (Hne : Detector.perimeter_rssi_levels state_moved ≠ [])
    by (intros H; discriminate H).
  assert (Hloop : Detector.ui_update_loop 13 db_up state_moved
                  = Ok (pass_moved.1, pass_moved.2)) by (vm_compute; reflexivity).
  assert (Hd1 : Detector.detected_beacons pass_moved.1 !! "AA:00"%string
                = Some {| Detector.uuid := "0102030405060708090a0b0c0d0e0f10";
                          Detector.name := "tag";
                          Detector.readings := [-50; -110];
                          Detector.avg_rssi := Some (-160 # 2)%Q;
                          Detector.home_rssi := Some (-50)%Q;
                          Detector.status := Detector.ZONA_2;
                          Detector.last_seen := Some 12%Q |}) by (vm_compute; reflexivity).
  assert (Hd2 : Detector.detected_beacons pass_moved.1 !! "BB:00"%string
                = Some {| Detector.uuid := "0102030405060708090a0b0c0d0e0f10";
                          Detector.name := "Desconocido";
                          Detector.readings := [-60];
                          Detector.avg_rssi := Some (-60)%Q;
                          Detector.home_rssi := Some (-60)%Q;
                          Detector.status := Detector.ZONA_1;
                          Detector.last_seen := Some 0%Q |}) by (vm_compute; reflexivity).
  split; [exact Hrun|]. split; [exact Hloop|].
  split; [by rewrite Hd1|]. split; [by rewrite Hd2|].
  refine (proj1 (stronger_signal_nearer_zone _ _ _ _ _ _ _ _ _ _ _ _
                   Hrun Hne Hloop Hd1 Hd2 eq_refl eq_refl _)).
  vm_compute. discriminate.
Defined.

(** ** The map *)











(** ** The log view *)

(** X16.  After any sequence of calls of [add_log_message] on a log view of
    at most 50 lines, the view holds the latest 50 of the lines it held
    followed by the new ones, in the order in which they were logged, each
    as "[time] message": the view never exceeds 50 lines and only the
    oldest lines are dropped. *)
Theorem log_view_keeps_the_latest (controls : list string)
    (entries : list (string * string)) :
  (length controls ≤ 50)%nat →
  foldl (λ c e, Detector.add_log_message e.1 e.2 c) controls entries
  = drop (length (controls ++ (log_line <$> entries)) - 50)
      (controls ++ (log_line <$> entries))
  ∧ (length (foldl (λ c e, Detector.add_log_message e.1 e.2 c) controls entries) ≤ 50)%nat.
Proof.
  intros Hlen.
  assert (Hfold : foldl (λ c e, Detector.add_log_message e.1 e.2 c) controls entries
                  = foldl (λ c line, if bool_decide (50 < length (c ++ [line]))%nat
                                     then drop 1 (c ++ [line]) else c ++ [line])
                      controls (log_line <$> entries)).
  { rewrite foldl_fmap. done. }
  rewrite Hfold.
  apply (capped_append_fold 50
           (λ c line, if bool_decide (50 < length (c ++ [line]))%nat
                      then drop 1 (c ++ [line]) else c ++ [line])); [done|lia|done].
Qed.

(** Fifty-two messages on an empty view: the first two are gone. *)
Lemma log_view_keeps_the_latest_witness :
  length (foldl (λ c e, Detector.add_log_message e.1 e.2 c) [] fifty_two_messages) = 50%nat
  ∧ foldl (λ c e, Detector.add_log_message e.1 e.2 c) [] fifty_two_messages
    = drop 2 (log_line <$> fifty_two_messages).
Proof.
  assert (Hlen : (length (@nil string) ≤ 50)%nat) by (simpl; lia).
  destruct (log_view_keeps_the_latest [] fifty_two_messages Hlen) as [Heq _].
  rewrite Heq. split; vm_compute; reflexivity.
Defined.

(** ** The identity that the decoder reads *)

Lemma hex_byte_value (x : byte) :
  (hex_value (hex_digit (Byte.to_N x / 16)) * 16
   + hex_value (hex_digit (Byte.to_N x mod 16)))%N = Byte.to_N x.
Proof. destruct x; reflexivity. Qed.

Lemma hex_inj (b1 b2 : bytes) : hex b1 = hex b2 → b1 = b2.
Proof.
  revert b2. induction b1 as [|x b1 IH]; intros [|y b2]; simpl; try done.
  intros [= H1 H2 H3]. f_equal; [|by apply IH].
  assert (Hn : Byte.to_N x = Byte.to_N y).
  { rewrite <- (hex_byte_value x), <- (hex_byte_value y). by rewrite H1, H2. }
  assert (Hs : Some x = Some y) by by rewrite <- (Byte.of_to_N x), Hn, Byte.of_to_N.
  by injection Hs.
Qed.

Lemma hex_length (b : bytes) : String.length (hex b) = (2 * length b)%nat.
Proof. induction b as [|x b IH]; simpl; [done|]. rewrite IH. lia. Qed.

Lemma byte_range (x : byte) : 0 ≤ Z.of_N (Byte.to_N x) < 256.
Proof. pose proof (Byte.to_N_bounded x). lia. Qed.

Lemma byte_value_inj (x y : byte) : Z.of_N (Byte.to_N x) = Z.of_N (Byte.to_N y) → x = y.
Proof.
  intros H. apply N2Z.inj in H.
  assert (Hs : Some x = Some y) by by rewrite <- (Byte.of_to_N x), H, Byte.of_to_N.
  by injection Hs.
Qed.

(** A big-endian integer of two bytes is below 65536 and determines the two
    bytes. *)
Lemma int_from_two_bytes (l1 l2 : bytes) :
  length l1 = 2%nat → length l2 = 2%nat →
  0 ≤ int_from_bytes_big l1 < 65536
  ∧ (int_from_bytes_big l1 = int_from_bytes_big l2 → l1 = l2).
Proof.
  destruct l1 as [|h1 [|x1 [|]]]; try done. destruct l2 as [|h2 [|x2 [|]]]; try done.
  intros _ _. unfold int_from_bytes_big. simpl.
  pose proof (byte_range h1). pose proof (byte_range x1).
  pose proof (byte_range h2). pose proof (byte_range x2).
  split; [lia|]. intros Heq.
  assert (Z.of_N (Byte.to_N h1) = Z.of_N (Byte.to_N h2)
          ∧ Z.of_N (Byte.to_N x1) = Z.of_N (Byte.to_N x2)) as [Hh Hx] by lia.
  by rewrite (byte_value_inj _ _ Hh), (byte_value_inj _ _ Hx).
Qed.

Lemma slice_length (i j : nat) (b : bytes) :
  (j ≤ length b)%nat → length (slice i j b) = (j - i)%nat.
Proof. intros H. unfold slice. rewrite length_take, length_drop. lia. Qed.

Lemma slice_identity (b : bytes) :
  slice 2 22 b = slice 2 18 b ++ slice 18 20 b ++ slice 20 22 b.
Proof.
  unfold slice.
  change (22 - 2)%nat with (16 + (2 + 2))%nat.
  change (18 - 2)%nat with 16%nat.
  change (20 - 18)%nat with 2%nat. change (22 - 20)%nat with 2%nat.
  rewrite <- (take_take_drop (drop 2 b) 16 (2 + 2)), drop_drop.
  change (2 + 16)%nat with 18%nat.
  rewrite <- (take_take_drop (drop 18 b) 2 2), drop_drop. done.
Qed.

(** X17.  For payloads that hold the 22 bytes of marker, UUID, major and
    minor, the identity that beacon2.py decodes is faithful: two payloads
    give the same UUID, major and minor exactly when their bytes 2 to 21
    are the same (what follows, such as the measured power, is not read).
    The UUID has 32 characters, and the major and the minor fit in 16
    bits. *)
Theorem decoded_identity_is_faithful (adv1 adv2 : advertisement_data) (b1 b2 : bytes)
    (i1 i2 : Scanner.ibeacon) :
  manufacturer_data adv1 !! APPLE = Some b1 →
  manufacturer_data adv2 !! APPLE = Some b2 →
  (22 ≤ length b1)%nat → (22 ≤ length b2)%nat →
  Scanner.decode adv1 = Ok (Some i1) →
  Scanner.decode adv2 = Ok (Some i2) →
  (i1 = i2 ↔ slice 2 22 b1 = slice 2 22 b2)
  ∧ String.length (Scanner.ib_uuid i1) = 32%nat
  ∧ 0 ≤ Scanner.ib_major i1 < 65536
  ∧ 0 ≤ Scanner.ib_minor i1 < 65536.
Proof.
  intros Hb1 Hb2 Hl1 Hl2 Hd1 Hd2.
  unfold Scanner.decode in Hd1, Hd2.
  rewrite match_ibeacon_spec, Hb1 in Hd1. rewrite match_ibeacon_spec, Hb2 in Hd2.
  simpl in Hd1, Hd2.
  destruct (bool_decide (slice 0 2 b1 = IBEACON_MARKER)); [|done].
  destruct (bool_decide (slice 0 2 b2 = IBEACON_MARKER)); [|done].
  injection Hd1 as <-. injection Hd2 as <-. simpl.
  assert (Hu1 : length (slice 2 18 b1) = 16%nat) by (rewrite slice_length; lia).
  assert (Hma1 : length (slice 18 20 b1) = 2%nat) by (rewrite slice_length; lia).
  assert (Hmi1 : length (slice 20 22 b1) = 2%nat) by (rewrite slice_length; lia).
  assert (Hma2 : length (slice 18 20 b2) = 2%nat) by (rewrite slice_length; lia).
  assert (Hmi2 : length (slice 20 22 b2) = 2%nat) by (rewrite slice_length; lia).
  destruct (int_from_two_bytes _ _ Hma1 Hma2) as [Hrma Hima].
  destruct (int_from_two_bytes _ _ Hmi1 Hmi2) as [Hrmi Himi].
  split; [|split; [by rewrite hex_length, Hu1|done]].
  rewrite !slice_identity. split.
  - intros [= Hu Hma Hmi].
    by rewrite (hex_inj _ _ Hu), (Hima Hma), (Himi Hmi).
  - intros Heq.
    apply app_inj_1 in Heq as [Hu Heq];
      [|rewrite Hu1; symmetry; rewrite slice_length; lia].
    apply app_inj_1 in Heq as [Hma Hmi]; [|by rewrite Hma1, Hma2].
    by rewrite Hu, Hma, Hmi.
Qed.

(** The payload of [ibeacon_adv] heard at -60 and at -40: one identity. *)
Lemma decoded_identity_is_faithful_witness :
  Scanner.decode (ibeacon_adv (-60))
  = Ok (Some {| Scanner.ib_uuid := "0102030405060708090a0b0c0d0e0f10";
                Scanner.ib_major := 1; Scanner.ib_minor := 2 |})
  ∧ String.length "0102030405060708090a0b0c0d0e0f10" = 32%nat
  ∧ 0 ≤ 1 < 65536.
Proof.
  assert (Hb1 : manufacturer_data (ibeacon_adv (-60)) !! APPLE = Some payload)
    by (vm_compute; reflexivity).
  assert (Hb2 : manufacturer_data (ibeacon_adv (-40)) !! APPLE = Some payload)
    by (vm_compute; reflexivity).
  assert (Hl : (22 ≤ length payload)%nat) by (vm_compute; lia).
  assert (Hd1 : Scanner.decode (ibeacon_adv (-60))
                = Ok (Some {| Scanner.ib_uuid := "0102030405060708090a0b0c0d0e0f10";
                              Scanner.ib_major := 1; Scanner.ib_minor := 2 |}))
    by (vm_compute; reflexivity).
  assert (Hd2 : Scanner.decode (ibeacon_adv (-40))
                = Ok (Some {| Scanner.ib_uuid := "0102030405060708090a0b0c0d0e0f10";
                              Scanner.ib_major := 1; Scanner.ib_minor := 2 |}))
    by (vm_compute; reflexivity).
  destruct (decoded_identity_is_faithful _ _ _ _ _ _ Hb1 Hb2 Hl Hl Hd1 Hd2)
    as (_ & Hlen & Hmaj & _).
  split; [exact Hd1|]. split; [exact Hlen|exact Hmaj].
Defined.

(** ** The calibration session *)




